(** * DebugAngel: the debug log writer of MuMain

    A shallow embedding of [Utilities/Log/DebugAngel.cpp] and the
    properties of the records it appends to a log file.

    The C++ code works on fixed-size [char] arrays living on the stack
    and on a file reached through the Win32 calls [CreateFile],
    [SetFilePointer], [WriteFile] and [CloseHandle].  Arrays are modelled
    as lists of characters of the declared size, every store is bounds
    checked, and an access outside an array ends the run with
    [Undefined]: the C++ program has no defined behaviour from there on. *)

From Stdlib Require Import ZArith Ascii String.
From Stdlib.Strings Require Import Byte.
From stdpp Require Import base option list gmap strings.

Local Open Scope Z_scope.

(** ** Characters *)

Definition NUL : ascii := Ascii.zero.
Definition CR : ascii := ascii_of_nat 13.
Definition LF : ascii := ascii_of_nat 10.

(** The characters of a string literal, without its terminator. *)
Definition lit (s : string) : list ascii := list_ascii_of_string s.

(** ** Runs that may leave defined behaviour *)

Inductive fault : Type :=
  | ReadPastEnd (array : string)
  | WritePastEnd (array : string) (index : nat)
  | NoFormatArgument.

Inductive result (A : Type) : Type :=
  | Ok (a : A)
  | Undefined (f : fault).

Arguments Ok {A} a.
Arguments Undefined {A} f.

#[global] Instance result_ret : MRet result := fun A a => Ok a.
#[global] Instance result_bind : MBind result := fun A B k r =>
  match r with
  | Ok a => k a
  | Undefined f => Undefined f
  end.

(** ** Character arrays *)

(** A [char] array: the name it is declared under and its cells.  The
    number of cells is the declared size. *)
Record cbuf : Type := CBuf { arr_name : string; cells : list ascii }.

(** [char name[n];] without initialiser: the cells hold whatever the
    stack held, given by [g]. *)
Definition uninit (name : string) (n : nat) (g : nat → ascii) : cbuf :=
  CBuf name (map g (seq 0 n)).

(** A string literal and [char name[n] = "...";], whose remaining
    cells are zero. *)
Definition literal (s : string) : cbuf :=
  CBuf "literal" (lit s ++ [NUL]).

Definition init (name : string) (n : nat) (s : string) : cbuf :=
  CBuf name (take n (lit s ++ replicate n NUL)).

(** [b[i] = c] *)
Definition poke (b : cbuf) (i : nat) (c : ascii) : result cbuf :=
  if decide (i < length (cells b))%nat
  then Ok (CBuf (arr_name b) (<[i:=c]> (cells b)))
  else Undefined (WritePastEnd (arr_name b) i).

(** Stores of consecutive characters from cell [i] upwards, lowest first. *)
Fixpoint poke_from (b : cbuf) (i : nat) (s : list ascii) : result cbuf :=
  match s with
  | [] => Ok b
  | c :: r => b' ← poke b i c; poke_from b' (S i) r
  end.

(** Index of the first NUL of a cell list, if there is one. *)
Fixpoint scan_nul (l : list ascii) : option nat :=
  match l with
  | [] => None
  | c :: r => if decide (c = NUL) then Some 0%nat else S <$> scan_nul r
  end.

Definition strlen (b : cbuf) : result nat :=
  match scan_nul (cells b) with
  | Some n => Ok n
  | None => Undefined (ReadPastEnd (arr_name b))
  end.

(** The string an array holds: its characters before the first NUL. *)
Definition c_str (b : cbuf) : result (list ascii) :=
  n ← strlen b; Ok (take n (cells b)).

Definition strcpy (dst src : cbuf) : result cbuf :=
  s ← c_str src; poke_from dst 0 (s ++ [NUL]).

Definition strcat (dst src : cbuf) : result cbuf :=
  s ← c_str src; n ← strlen dst; poke_from dst n (s ++ [NUL]).

(** ** Number rendering *)

Definition digit_char (d : Z) : ascii := ascii_of_N (Z.to_N (48 + d)).

(** Decimal digits of a non-negative number, most significant first. *)
Fixpoint dec_digits (fuel : nat) (n : Z) (acc : list ascii) : list ascii :=
  match fuel with
  | O => acc
  | S f =>
      let acc' := digit_char (n mod 10) :: acc in
      if n / 10 =? 0 then acc' else dec_digits f (n / 10) acc'
  end.

Definition decimal (n : Z) : list ascii :=
  if n <? 0 then "-"%char :: dec_digits (S (Z.to_nat (- n))) (- n) []
  else dec_digits (S (Z.to_nat n)) n [].

(** A number in at least two decimal digits, zero padded. *)
Definition pad2 (n : Z) : list ascii :=
  let s := decimal n in
  if decide (length s < 2)%nat then "0"%char :: s else s.

(** An uppercase hexadecimal digit. *)
Definition hex_char (d : N) : ascii :=
  if (d <? 10)%N then ascii_of_N (48 + d) else ascii_of_N (55 + d).

(** [%02X] of a [BYTE]: two uppercase hexadecimal digits. *)
Definition fmt_02X (b : byte) : list ascii :=
  [hex_char (Byte.to_N b / 16); hex_char (Byte.to_N b mod 16)].

(** The text of [wsprintf(_, "0x%02X ", b)]. *)
Definition hex_token (b : byte) : list ascii :=
  lit "0x" ++ fmt_02X b ++ lit " ".

Definition wsprintf_0x02X (dst : cbuf) (b : byte) : result cbuf :=
  poke_from dst 0 (hex_token b ++ [NUL]).

(** ** Broken-down time and [strftime] *)

Record tm : Type := Tm {
  tm_sec : Z; tm_min : Z; tm_hour : Z;
  tm_mday : Z; tm_mon : Z; tm_year : Z
}.

(** The conversions of [strftime] the program uses; any other
    character after [%] is copied as it stands. *)
Definition conversion (c : ascii) (t : tm) : list ascii :=
  if decide (c = "Y"%char) then decimal (tm_year t + 1900)
  else if decide (c = "m"%char) then pad2 (tm_mon t + 1)
  else if decide (c = "d"%char) then pad2 (tm_mday t)
  else if decide (c = "H"%char) then pad2 (tm_hour t)
  else if decide (c = "M"%char) then pad2 (tm_min t)
  else if decide (c = "S"%char) then pad2 (tm_sec t)
  else [c].

Fixpoint strftime_text (format : list ascii) (t : tm) : list ascii :=
  match format with
  | [] => []
  | c :: r =>
      if decide (c = "%"%char) then
        match r with
        | [] => [c]
        | d :: r' => conversion d t ++ strftime_text r' t
        end
      else c :: strftime_text r t
  end.

(** [strftime(s, maxsize, format, t)]: the text and its terminator are
    stored when they fit in [maxsize] characters; otherwise the array is
    left as it is. *)
Definition strftime (s : cbuf) (maxsize : nat) (format : string) (t : tm)
  : result cbuf :=
  let text := strftime_text (lit format) t in
  if decide (length text < maxsize)%nat
  then poke_from s 0 (text ++ [NUL])
  else Ok s.

(** A clock reading as Coordinated Universal Time: the local time of a
    machine whose time zone is UTC. *)
Definition gmtime (t : Z) : tm :=
  let days := t / 86400 in
  let secs := t mod 86400 in
  let z := days + 719468 in
  let era := z / 146097 in
  let doe := z mod 146097 in
  let yoe := (doe - doe / 1460 + doe / 36524 - doe / 146096) / 365 in
  let doy := doe - (365 * yoe + yoe / 4 - yoe / 100) in
  let mp := (5 * doy + 2) / 153 in
  let d := doy - (153 * mp + 2) / 5 + 1 in
  let m := if mp <? 10 then mp + 3 else mp - 9 in
  let y := if m <=? 2 then yoe + era * 400 + 1 else yoe + era * 400 in
  Tm (secs mod 60) (secs / 60 mod 60) (secs / 3600) d (m - 1) (y - 1900).

(** ** The file system and the clock *)

(** Files are kept by the file itself, not by the path that was used to
    reach it: several paths name one file (letter case, a [./] in front,
    a dot at the end), and [file_of] tells which file a path names. *)
Record World : Type := MkWorld {
  files : gmap string (list ascii);   (* the files that exist, with their bytes *)
  denied : gset string;               (* paths that cannot be opened for writing *)
  clock : Z;                          (* what [time] returns *)
  file_of : string → string           (* the file a path names *)
}.

Definition contents (w : World) (path : string) : list ascii :=
  default [] (files w !! file_of w path).

Definition set_file (path : string) (bytes : list ascii) (w : World) : World :=
  MkWorld (<[file_of w path := bytes]> (files w)) (denied w) (clock w)
    (file_of w).

(** The file fits a file pointer of 32 bits: it is shorter than 4 GiB. *)
Definition log_fits (w : World) (path : string) : Prop :=
  Z.of_nat (length (contents w path)) < 4294967296.

Inductive HANDLE : Type :=
  | INVALID_HANDLE_VALUE
  | FileHandle (path : string) (pos : nat).

Inductive disposition : Type :=
  | CREATE_NEW | CREATE_ALWAYS | OPEN_EXISTING | OPEN_ALWAYS | TRUNCATE_EXISTING.

Inductive move_method : Type := FILE_BEGIN | FILE_CURRENT | FILE_END.

(** [CreateFile(name, GENERIC_WRITE, FILE_SHARE_READ, NULL, d,
    FILE_ATTRIBUTE_NORMAL, NULL)].  The new handle's file pointer is 0. *)
Definition CreateFile (lpFileName : string) (d : disposition) (w : World)
  : HANDLE * World :=
  if decide (lpFileName ∈ denied w) then (INVALID_HANDLE_VALUE, w)
  else
    let opened := (FileHandle lpFileName 0, w) in
    let emptied := (FileHandle lpFileName 0, set_file lpFileName [] w) in
    let failed := (INVALID_HANDLE_VALUE, w) in
    match d, files w !! file_of w lpFileName with
    | CREATE_NEW, Some _ => failed
    | CREATE_NEW, None => emptied
    | CREATE_ALWAYS, _ => emptied
    | OPEN_EXISTING, Some _ => opened
    | OPEN_EXISTING, None => failed
    | OPEN_ALWAYS, Some _ => opened
    | OPEN_ALWAYS, None => emptied
    | TRUNCATE_EXISTING, Some _ => emptied
    | TRUNCATE_EXISTING, None => failed
    end.

(** [SetFilePointer(h, dist, NULL, m)].  With NULL for the high part
    of the distance the new position has to fit 32 bits: a move before
    the start of the file or to 4 GiB and beyond fails and leaves the
    pointer where it was. *)
Definition SetFilePointer (h : HANDLE) (lDistanceToMove : Z) (m : move_method)
    (w : World) : HANDLE :=
  match h with
  | INVALID_HANDLE_VALUE => INVALID_HANDLE_VALUE
  | FileHandle path pos =>
      let base :=
        match m with
        | FILE_BEGIN => 0
        | FILE_CURRENT => Z.of_nat pos
        | FILE_END => Z.of_nat (length (contents w path))
        end in
      if (base + lDistanceToMove <? 0)
         || (4294967296 <=? base + lDistanceToMove) then h
      else FileHandle path (Z.to_nat (base + lDistanceToMove))
  end.

(** Bytes stored at offset [pos] of a file: they replace what was there
    and extend the file where it ends earlier; a gap is zero filled. *)
Definition write_at (pos : nat) (data old : list ascii) : list ascii :=
  take pos old ++ replicate (pos - length old) NUL ++ data
    ++ drop (pos + length data) old.

(** [WriteFile(h, lpBuffer, n, &dwNumber, NULL)] *)
Definition WriteFile (h : HANDLE) (lpBuffer : cbuf) (n : nat) (w : World)
  : result (HANDLE * World) :=
  match h with
  | INVALID_HANDLE_VALUE => Ok (h, w)
  | FileHandle path pos =>
      if decide (n ≤ length (cells lpBuffer))%nat
      then Ok (FileHandle path (pos + n),
               set_file path (write_at pos (take n (cells lpBuffer)) (contents w path)) w)
      else Undefined (ReadPastEnd (arr_name lpBuffer))
  end.

Definition CloseHandle (h : HANDLE) (w : World) : World := w.

(** [time(&currentTime)] *)
Definition time (w : World) : Z := clock w.

(** A variadic argument. *)
Inductive VArg : Type :=
  | VInt (n : Z)
  | VStr (s : string).

Definition CRLF : string := String CR (String LF EmptyString).

(** The calls a client makes on a log file; in a sequence of calls each
    is made at its own clock reading. *)
Inductive call : Type :=
  | CallInfoStr (lpszToWrite : cbuf)
  | CallWrite (va : list VArg)
  | CallHexWrite (pBuffer : list byte) (iSize sender : Z).

Definition at_time (t : Z) (w : World) : World :=
  MkWorld (files w) (denied w) t (file_of w).

(** A file system that tells paths apart by their letters but not by
    their case. *)
Definition lower (c : ascii) : ascii :=
  let n := N_of_ascii c in
  if ((65 <=? n) && (n <=? 90))%N then ascii_of_N (n + 32) else c.

Fixpoint ignore_case (path : string) : string :=
  match path with
  | EmptyString => EmptyString
  | String c rest => String (lower c) (ignore_case rest)
  end.

(** Worlds for the examples, their clock at 2024-01-02 03:04:05 UTC:
    one without files, one with a log, one with a log that cannot be
    opened. *)
Definition world0 : World := MkWorld ∅ ∅ 1704164645 ignore_case.

Definition world_log : World :=
  MkWorld {["log.txt" := lit "old"]} ∅ 1704164645 ignore_case.

Definition world_denied : World :=
  MkWorld {["log.txt" := lit "old"]} {["log.txt"]} 1704164645 ignore_case.

(** A world whose log has reached 4 GiB. *)
Definition four_GiB : nat := Z.to_nat 4294967296.

Definition world_4GiB : World :=
  MkWorld {["log.txt" := replicate four_GiB "a"%char]} ∅ 1704164645
    ignore_case.

(** Example inputs: three bytes, a stack full of question marks, and a
    renderer for formats without conversions. *)
Definition bytes3 : list byte := [x41; x00; xff]%byte.

Definition stack0 : string → nat → ascii := λ _ _, "?"%char.

Definition plain_text : string → list VArg → list ascii := λ f _, lit f.

(** [world_log] after the three example bytes were dumped with
    direction 1. *)
Definition world_log_dumped : World :=
  set_file "log.txt"
    (lit "old[2024-01-02 03:04:05] C->S 0x41 0x00 0xFF " ++ [CR; LF])
    world_log.

(** Three calls, one second apart. *)
Definition three_calls : list (Z * call) :=
  [(1704164645, CallWrite [VStr "start"]);
   (1704164646, CallHexWrite bytes3 3 1);
   (1704164647, CallInfoStr (literal "end"))].

(** ** What the log is to look like *)

(** The characters of a text before its first NUL: the string a C
    reader sees in it. *)
Fixpoint until_nul (l : list ascii) : list ascii :=
  match l with
  | [] => []
  | c :: r => if decide (c = NUL) then [] else c :: until_nul r
  end.

Definition nul_free (s : list ascii) : Prop := Forall (λ c, c ≠ NUL) s.

(** Array [b], declared as [name[size]], holds the string [s]. *)
Definition holds (b : cbuf) (name : string) (size : nat) (s : list ascii)
  : Prop :=
  arr_name b = name ∧ length (cells b) = size ∧ nul_free s
  ∧ ∃ r, cells b = s ++ NUL :: r.

(** What a log holds after a record was written through a handle that
    was sought to the end of the log with a pointer of 32 bits: the
    record is appended to a log that fits the pointer, and it replaces
    the first bytes of a log that does not. *)
Definition written (rec old : list ascii) : list ascii :=
  if decide (Z.of_nat (length old) < 4294967296) then old ++ rec
  else write_at 0 rec old.

(** The world after such a write to the log at [path]: nothing changes
    when the path cannot be opened. *)
Definition write_record (path : string) (rec : list ascii) (w : World)
  : World :=
  if decide (path ∈ denied w) then w
  else set_file path (written rec (contents w path)) w.

(** The fields of a timestamp as the log shows them: the year in four
    digits, every other field in two. *)
Definition two_digits (n : Z) : list ascii :=
  [digit_char (n / 10); digit_char (n mod 10)].

Definition four_digits (n : Z) : list ascii :=
  [digit_char (n / 1000); digit_char (n / 100 mod 10);
   digit_char (n / 10 mod 10); digit_char (n mod 10)].

(** [[YYYY-MM-DD HH:MM:SS] ] for a broken-down time. *)
Definition spec_timestamp (t : tm) : list ascii :=
  lit "[" ++ four_digits (tm_year t + 1900) ++ lit "-"
    ++ two_digits (tm_mon t + 1) ++ lit "-" ++ two_digits (tm_mday t)
    ++ lit " " ++ two_digits (tm_hour t) ++ lit ":" ++ two_digits (tm_min t)
    ++ lit ":" ++ two_digits (tm_sec t) ++ lit "] ".

(** A broken-down time as [localtime] returns it, in a year of four
    digits. *)
Definition tm_in_range (t : tm) : Prop :=
  0 ≤ tm_sec t ≤ 60 ∧ 0 ≤ tm_min t ≤ 59 ∧ 0 ≤ tm_hour t ≤ 23
  ∧ 1 ≤ tm_mday t ≤ 31 ∧ 0 ≤ tm_mon t ≤ 11
  ∧ 1000 ≤ tm_year t + 1900 ≤ 9999.

Definition spec_direction_tag (sender : Z) : list ascii :=
  if decide (sender = 1) then lit "C->S " else lit "S->C ".

(** The record of a hex dump of the bytes [B]. *)
Definition spec_hex_record (t : tm) (B : list byte) (sender : Z)
  : list ascii :=
  spec_timestamp t ++ spec_direction_tag sender
    ++ concat (map hex_token B) ++ [CR; LF].

(** Reading a hex dump back: the value of an uppercase hexadecimal
    digit, of a token [0xXX ] and of a row of tokens. *)
Definition upper_hex_value (c : ascii) : option N :=
  let n := N_of_ascii c in
  if ((48 <=? n) && (n <=? 57))%N then Some (n - 48)%N
  else if ((65 <=? n) && (n <=? 70))%N then Some (n - 55)%N
  else None.

Fixpoint parse_hex_body (l : list ascii) : option (list byte) :=
  match l with
  | [] => Some []
  | z :: x :: hi :: lo :: sp :: rest =>
      if decide (z = "0"%char ∧ x = "x"%char ∧ sp = " "%char) then
        h ← upper_hex_value hi;
        l ← upper_hex_value lo;
        b ← Byte.of_N (16 * h + l);
        B ← parse_hex_body rest;
        Some (b :: B)
      else None
  | _ => None
  end.

(** A printable character of ASCII: neither a control character, so
    no NUL, CR or LF, nor beyond 126. *)
Definition printable (c : ascii) : bool :=
  let n := N_of_ascii c in ((32 <=? n) && (n <=? 126))%N.

(** Reading a record back: a decimal digit, a field of two digits, the
    timestamp, the direction tag, the tokens up to the line end, and the
    whole record of a hex dump. *)
Definition digit_value (c : ascii) : option Z :=
  let n := Z.of_N (N_of_ascii c) in
  if (48 <=? n) && (n <=? 57) then Some (n - 48) else None.

Definition parse2 (a b : ascii) : option Z :=
  x ← digit_value a; y ← digit_value b; Some (10 * x + y).

Definition parse_timestamp (l : list ascii) : option tm :=
  match l with
  | [o; y1; y2; y3; y4; d1; m1; m2; d2; a1; a2; s1; h1; h2; c1; n1; n2; c2;
     e1; e2; cl; s2] =>
      if decide (o = "["%char ∧ d1 = "-"%char ∧ d2 = "-"%char
                 ∧ s1 = " "%char ∧ c1 = ":"%char ∧ c2 = ":"%char
                 ∧ cl = "]"%char ∧ s2 = " "%char) then
        yh ← parse2 y1 y2;
        yl ← parse2 y3 y4;
        mo ← parse2 m1 m2;
        da ← parse2 a1 a2;
        ho ← parse2 h1 h2;
        mi ← parse2 n1 n2;
        se ← parse2 e1 e2;
        Some (Tm se mi ho da (mo - 1) (100 * yh + yl - 1900))
      else None
  | _ => None
  end.

(** [true] for client to server. *)
Definition parse_tag (l : list ascii) : option bool :=
  if decide (l = lit "C->S ") then Some true
  else if decide (l = lit "S->C ") then Some false
  else None.

(** The tokens of a line up to its CR LF, and what follows the line. *)
Fixpoint parse_tokens_to_eol (l : list ascii)
  : option (list byte * list ascii) :=
  match l with
  | c :: d :: r =>
      if decide (c = CR ∧ d = LF) then Some ([], r)
      else
        match r with
        | hi :: lo :: sp :: rest =>
            if decide (c = "0"%char ∧ d = "x"%char ∧ sp = " "%char) then
              h ← upper_hex_value hi;
              l ← upper_hex_value lo;
              b ← Byte.of_N (16 * h + l);
              '(B, tail) ← parse_tokens_to_eol rest;
              Some (b :: B, tail)
            else None
        | _ => None
        end
  | _ => None
  end.

(** What a log of hex dumps tells about one call: its local time,
    whether it went from client to server, and the bytes. *)
Definition entry : Type := tm * bool * list byte.

(** The first record of a text, and the text after it. *)
Definition parse_entry (l : list ascii) : option (entry * list ascii) :=
  t ← parse_timestamp (take 22 l);
  c2s ← parse_tag (take 5 (drop 22 l));
  '(B, tail) ← parse_tokens_to_eol (drop 27 l);
  Some ((t, c2s, B), tail).

Definition parse_record (l : list ascii) : option entry :=
  '(e, tail) ← parse_entry l;
  if decide (tail = []) then Some e else None.

(** A whole log, record by record; [fuel] bounds the number of
    records. *)
Fixpoint parse_log (fuel : nat) (l : list ascii) : option (list entry) :=
  match l, fuel with
  | [], _ => Some []
  | _, O => None
  | _, S fuel' =>
      '(e, tail) ← parse_entry l;
      es ← parse_log fuel' tail;
      Some (e :: es)
  end.

Definition read_log (l : list ascii) : option (list entry) :=
  parse_log (length l) l.

(** A hex dump of a whole buffer, as a call at a clock reading and as
    the entry it is to leave in the log. *)
Definition dump : Type := Z * list byte * Z.

Definition dump_call (d : dump) : Z * call :=
  let '(t, B, sender) := d in
  (t, CallHexWrite B (Z.of_nat (length B)) sender).

(** ** The program *)

Section DebugAngel.

(** The time zone of the machine: how [localtime] breaks a clock reading
    down. *)
Variable localtime : Z → tm.

(** The text [wvsprintf] renders for a format and its arguments. *)
Variable wvsprintf_text : string → list VArg → list ascii.

(** What the stack holds where an array is declared without
    initialiser, by array name. *)
Variable garbage : string → nat → ascii.

Definition local (name : string) (n : nat) : cbuf :=
  uninit name n (garbage name).

Definition wvsprintf (dst : cbuf) (lpszFormat : string) (va : list VArg)
  : result cbuf :=
  poke_from dst 0 (wvsprintf_text lpszFormat va ++ [NUL]).

Definition WriteDebugInfoStr (lpszFileName : string) (lpszToWrite : cbuf)
    (w : World) : result World :=
  let '(hFile, w) := CreateFile lpszFileName OPEN_ALWAYS w in
  let hFile := SetFilePointer hFile 0 FILE_END w in
  n ← strlen lpszToWrite;
  '(hFile, w) ← WriteFile hFile lpszToWrite n w;
  Ok (CloseHandle hFile w).

Definition DebugAngel_Write (lpszFileName : string) (va : list VArg)
    (w : World) : result World :=
  let lpszBuffer := local "lpszBuffer" 1024 in
  match va with
  | VStr lpszFormat :: va =>
      lpszBuffer ← wvsprintf lpszBuffer lpszFormat va;
      WriteDebugInfoStr lpszFileName lpszBuffer w
  | _ => Undefined NoFormatArgument
  end.

Definition GetCurrentTimeWrapped (timeStr : cbuf) (w : World) : result cbuf :=
  let currentTime := time w in
  strftime timeStr 64 "[%Y-%m-%d %H:%M:%S] " (localtime currentTime).

(** The loop of [DebugAngel_HexWrite] with [n] rounds to go, [j] the
    loop counter and [pbySeek] pointing at [pBuffer[j]]. *)
Fixpoint HexWrite_loop (pBuffer : list byte) (n j : nat) (lpszStr : cbuf)
  : result cbuf :=
  match n with
  | O => Ok lpszStr
  | S n' =>
      let lpszTemp := local "lpszTemp" 16 in
      match pBuffer !! j with
      | None => Undefined (ReadPastEnd "pBuffer")
      | Some b =>
          lpszTemp ← wsprintf_0x02X lpszTemp b;
          lpszStr ← strcat lpszStr lpszTemp;
          HexWrite_loop pBuffer n' (S j) lpszStr
      end
  end.

Definition DebugAngel_HexWrite (lpszFileName : string) (pBuffer : list byte)
    (iSize : Z) (sender : Z) (w : World) : result World :=
  let '(hFile, w) := CreateFile lpszFileName OPEN_ALWAYS w in
  let hFile := SetFilePointer hFile 0 FILE_END w in
  let lpszStr := local "lpszStr" 1024 in
  let logType := init "logType" 10 "" in
  let timeStr := local "timeStr" 64 in
  lpszStr ← poke lpszStr 0 NUL;
  timeStr ← GetCurrentTimeWrapped timeStr w;
  lpszStr ← strcat lpszStr timeStr;
  logType ← (if sender =? 1 then strcpy logType (literal "C->S ")
             else strcpy logType (literal "S->C "));
  lpszStr ← strcat lpszStr logType;
  lpszStr ← HexWrite_loop pBuffer (Z.to_nat iSize) 0 lpszStr;
  lpszStr ← strcat lpszStr (literal CRLF);
  n ← strlen lpszStr;
  '(hFile, w) ← WriteFile hFile lpszStr n w;
  Ok (CloseHandle hFile w).

(** One call, and a sequence of calls, on the log at [path]. *)
Definition run_call (path : string) (c : call) (w : World) : result World :=
  match c with
  | CallInfoStr lpszToWrite => WriteDebugInfoStr path lpszToWrite w
  | CallWrite va => DebugAngel_Write path va w
  | CallHexWrite pBuffer iSize sender =>
      DebugAngel_HexWrite path pBuffer iSize sender w
  end.

Fixpoint run_calls (path : string) (cs : list (Z * call)) (w : World)
  : result World :=
  match cs with
  | [] => Ok w
  | (t, c) :: cs' =>
      w' ← run_call path c (at_time t w); run_calls path cs' w'
  end.

(** The record a call made at clock reading [t] is to leave. *)
Definition spec_record (tc : Z * call) : list ascii :=
  match tc with
  | (_, CallInfoStr lpszToWrite) => until_nul (cells lpszToWrite)
  | (_, CallWrite (VStr lpszFormat :: va)) =>
      until_nul (wvsprintf_text lpszFormat va)
  | (_, CallWrite _) => []
  | (t, CallHexWrite pBuffer iSize sender) =>
      spec_hex_record (localtime t) (take (Z.to_nat iSize) pBuffer) sender
  end.

(** A call that stays inside every array it touches. *)
Definition call_in_bounds (tc : Z * call) : Prop :=
  match tc with
  | (_, CallInfoStr lpszToWrite) => Exists (λ c, c = NUL) (cells lpszToWrite)
  | (_, CallWrite (VStr lpszFormat :: va)) =>
      (length (wvsprintf_text lpszFormat va) < 1024)%nat
  | (_, CallWrite _) => False
  | (t, CallHexWrite pBuffer iSize sender) =>
      tm_in_range (localtime t) ∧ iSize ≤ 198
      ∧ iSize ≤ Z.of_nat (length pBuffer)
  end.

(** The record and the log entry of a hex dump of a whole buffer, and
    the dumps that stay inside [lpszStr]. *)
Definition dump_record (d : dump) : list ascii :=
  let '(t, B, sender) := d in spec_hex_record (localtime t) B sender.

Definition dump_entry (d : dump) : entry :=
  let '(t, B, sender) := d in (localtime t, bool_decide (sender = 1), B).

Definition dump_in_bounds (d : dump) : Prop :=
  let '(t, B, sender) := d in
  tm_in_range (localtime t) ∧ (length B ≤ 198)%nat.

(** ** Stores into character arrays *)

Lemma poke_from_ok (s : list ascii) :
  ∀ (b : cbuf) (i : nat),
    (i + length s ≤ length (cells b))%nat →
    poke_from b i s
    = Ok (CBuf (arr_name b)
            (take i (cells b) ++ s ++ drop (i + length s) (cells b))).
Proof.
  induction s as [|c r IH]; intros [nm l] i Hle; simpl in *.
  - rewrite Nat.add_0_r, take_drop. reflexivity.
  - unfold poke; simpl. rewrite decide_True by lia. simpl.
    rewrite IH by (simpl; rewrite length_insert; lia). simpl.
    f_equal. f_equal.
    assert (Hi : (i < length l)%nat) by lia.
    rewrite (take_S_r _ i c) by (apply list_lookup_insert_eq; exact Hi).
    rewrite take_insert_ge by lia.
    rewrite drop_insert_lt by lia.
    rewrite <- app_assoc. simpl.
    replace (i + S (length r))%nat with (S (i + length r)) by lia.
    reflexivity.
Qed.

Lemma poke_from_overrun (s : list ascii) :
  ∀ (b : cbuf) (i : nat),
    (i ≤ length (cells b) < i + length s)%nat →
    poke_from b i s
    = Undefined (WritePastEnd (arr_name b) (length (cells b))).
Proof.
  induction s as [|c r IH]; intros [nm l] i [Hlo Hhi]; simpl in *; [lia|].
  unfold poke; simpl. destruct (decide (i < length l)%nat) as [Hi|Hi]; simpl.
  - rewrite IH by (simpl; rewrite length_insert; lia). simpl.
    rewrite length_insert. reflexivity.
  - replace i with (length l) by lia. reflexivity.
Qed.

Lemma scan_nul_app (s r : list ascii) :
  nul_free s → scan_nul (s ++ NUL :: r) = Some (length s).
Proof.
  induction 1 as [|c s Hc _ IH]; simpl.
  - reflexivity.
  - rewrite decide_False by exact Hc. rewrite IH. reflexivity.
Qed.

Lemma scan_nul_lt (l : list ascii) (n : nat) :
  scan_nul l = Some n → (n < length l)%nat.
Proof.
  revert n. induction l as [|c l IH]; intros n; simpl; [discriminate|].
  destruct (decide (c = NUL)).
  - intros [= <-]. lia.
  - destruct (scan_nul l) as [m|]; simpl; [|discriminate].
    intros [= <-]. specialize (IH m eq_refl). lia.
Qed.

Lemma until_nul_nul_free (l : list ascii) : nul_free (until_nul l).
Proof.
  induction l as [|c l IH]; simpl; [constructor|].
  destruct (decide (c = NUL)); constructor; assumption.
Qed.

Lemma until_nul_id (s : list ascii) : nul_free s → until_nul s = s.
Proof.
  induction 1 as [|c s Hc _ IH]; simpl; [reflexivity|].
  rewrite decide_False by exact Hc. rewrite IH. reflexivity.
Qed.

(** A text followed by a NUL reads as the text up to its first NUL. *)
Lemma until_nul_split (l r : list ascii) :
  ∃ r', l ++ NUL :: r = until_nul l ++ NUL :: r'.
Proof.
  induction l as [|c l [r' IH]]; simpl.
  - exists r. reflexivity.
  - destruct (decide (c = NUL)) as [->|Hc].
    + exists (l ++ NUL :: r). reflexivity.
    + exists r'. rewrite IH. reflexivity.
Qed.

Lemma until_nul_length (l : list ascii) :
  (length (until_nul l) ≤ length l)%nat.
Proof.
  induction l as [|c l IH]; simpl; [lia|].
  destruct (decide (c = NUL)); simpl; lia.
Qed.

Lemma holds_strlen b name size s :
  holds b name size s → strlen b = Ok (length s).
Proof.
  intros (_ & _ & Hs & r & Hr). unfold strlen.
  rewrite Hr, scan_nul_app by exact Hs. reflexivity.
Qed.

Lemma holds_c_str b name size s : holds b name size s → c_str b = Ok s.
Proof.
  intros H. unfold c_str. rewrite (holds_strlen _ _ _ _ H). simpl.
  destruct H as (_ & _ & _ & r & ->).
  rewrite take_app_length. reflexivity.
Qed.

Lemma holds_length b name size s :
  holds b name size s → (length s < size)%nat.
Proof.
  intros (_ & <- & _ & r & ->). rewrite length_app. simpl. lia.
Qed.

Lemma holds_literal (s : string) :
  nul_free (lit s) → holds (literal s) "literal" (S (length (lit s))) (lit s).
Proof.
  intros Hs. unfold holds, literal; simpl. repeat split.
  - rewrite length_app. simpl. lia.
  - exact Hs.
  - exists []. reflexivity.
Qed.

(** Storing a text and its terminator from cell 0. *)
Lemma poke_text_ok b (text : list ascii) :
  (length text < length (cells b))%nat →
  ∃ b', poke_from b 0 (text ++ [NUL]) = Ok b'
        ∧ holds b' (arr_name b) (length (cells b)) (until_nul text).
Proof.
  intros Hlt. eexists. split.
  - apply poke_from_ok. rewrite length_app. simpl. lia.
  - unfold holds; simpl. repeat split.
    + rewrite !length_app, length_drop. simpl. lia.
    + apply until_nul_nul_free.
    + rewrite <- app_assoc. simpl. apply until_nul_split.
Qed.

Lemma strcpy_ok dst src name size s :
  holds src name size s → (length s < length (cells dst))%nat →
  ∃ dst', strcpy dst src = Ok dst'
          ∧ holds dst' (arr_name dst) (length (cells dst)) s.
Proof.
  intros Hsrc Hlt. unfold strcpy. rewrite (holds_c_str _ _ _ _ Hsrc). simpl.
  destruct (poke_text_ok dst s Hlt) as (b' & -> & Hb').
  exists b'. split; [reflexivity|].
  rewrite until_nul_id in Hb'; [exact Hb'|]. apply Hsrc.
Qed.

Lemma strcat_ok dst src name size s name' size' t :
  holds dst name size s → holds src name' size' t →
  (length s + length t < size)%nat →
  ∃ dst', strcat dst src = Ok dst' ∧ holds dst' name size (s ++ t).
Proof.
  intros Hdst Hsrc Hlt. unfold strcat.
  rewrite (holds_c_str _ _ _ _ Hsrc), (holds_strlen _ _ _ _ Hdst). simpl.
  destruct Hdst as (Hn & Hsz & Hs & r & Hr).
  eexists. split.
  - apply poke_from_ok. rewrite length_app. simpl. lia.
  - unfold holds; simpl. repeat split.
    + exact Hn.
    + rewrite !length_app, length_take, length_drop. simpl. lia.
    + apply Forall_app. split; [exact Hs | apply Hsrc].
    + rewrite Hr, take_app_length. eexists.
      rewrite <- !app_assoc. simpl. reflexivity.
Qed.

Lemma strcat_overrun dst src name size s name' size' t :
  holds dst name size s → holds src name' size' t →
  (size ≤ length s + length t)%nat →
  strcat dst src = Undefined (WritePastEnd name size).
Proof.
  intros Hdst Hsrc Hge. unfold strcat.
  rewrite (holds_c_str _ _ _ _ Hsrc), (holds_strlen _ _ _ _ Hdst). simpl.
  pose proof (holds_length _ _ _ _ Hdst) as Hlen.
  destruct Hdst as (<- & <- & _).
  apply poke_from_overrun. rewrite length_app. simpl. lia.
Qed.

(** ** Number rendering *)

(** Linear arithmetic with division and remainder by constants. *)
Ltac zlia := Z.div_mod_to_equations; lia.

Lemma dec_digits_last (fuel : nat) (n : Z) (acc : list ascii) :
  0 ≤ n < 10 → dec_digits (S fuel) n acc = digit_char n :: acc.
Proof.
  intros Hn. simpl.
  rewrite (Z.mod_small n 10), (Z.div_small n 10) by lia. reflexivity.
Qed.

Lemma dec_digits_more (fuel : nat) (n : Z) (acc : list ascii) :
  10 ≤ n →
  dec_digits (S fuel) n acc
  = dec_digits fuel (n / 10) (digit_char (n mod 10) :: acc).
Proof.
  intros Hn. simpl.
  destruct (Z.eqb_spec (n / 10) 0) as [H0|_]; [|reflexivity].
  exfalso. pose proof (Z.div_le_mono 10 n 10 ltac:(lia) Hn) as H.
  rewrite Z.div_same in H by lia. lia.
Qed.

Lemma decimal_four_digits (n : Z) :
  1000 ≤ n ≤ 9999 → decimal n = four_digits n.
Proof.
  intros Hn. unfold decimal, four_digits.
  destruct (Z.ltb_spec n 0) as [?|_]; [lia|].
  replace (Z.to_nat n) with (S (S (S (Z.to_nat n - 3)))) by lia.
  assert (H1 : 100 ≤ n / 10 ≤ 999) by zlia.
  assert (H2 : 10 ≤ n / 10 / 10 ≤ 99) by zlia.
  assert (H3 : 1 ≤ n / 10 / 10 / 10 ≤ 9) by zlia.
  rewrite dec_digits_more, dec_digits_more, dec_digits_more, dec_digits_last
    by lia.
  replace (n / 10 / 10 / 10) with (n / 1000) by zlia.
  replace (n / 10 / 10) with (n / 100) by zlia.
  reflexivity.
Qed.

Lemma pad2_two_digits (n : Z) : 0 ≤ n ≤ 99 → pad2 n = two_digits n.
Proof.
  intros Hn. unfold pad2, decimal, two_digits.
  destruct (Z.ltb_spec n 0) as [?|_]; [lia|].
  destruct (Z_lt_le_dec n 10) as [Hlt|Hge].
  - rewrite dec_digits_last by lia. simpl.
    rewrite (Z.div_small n 10), (Z.mod_small n 10) by lia. reflexivity.
  - replace (Z.to_nat n) with (S (Z.to_nat n - 1)) by lia.
    rewrite dec_digits_more, dec_digits_last by zlia. simpl.
    reflexivity.
Qed.

Lemma digit_char_not_nul (d : Z) : 0 ≤ d ≤ 9 → digit_char d ≠ NUL.
Proof.
  intros Hd H. apply (f_equal N_of_ascii) in H.
  unfold digit_char in H. rewrite N_ascii_embedding in H by lia.
  simpl in H. lia.
Qed.

Lemma two_digits_nul_free (n : Z) : 0 ≤ n ≤ 99 → nul_free (two_digits n).
Proof.
  intros Hn. unfold two_digits.
  repeat constructor; apply digit_char_not_nul; zlia.
Qed.

Lemma four_digits_nul_free (n : Z) :
  0 ≤ n ≤ 9999 → nul_free (four_digits n).
Proof.
  intros Hn. unfold four_digits.
  repeat constructor; apply digit_char_not_nul; zlia.
Qed.

Lemma hex_token_length (b : byte) : length (hex_token b) = 5%nat.
Proof. reflexivity. Qed.

Lemma hex_token_nul_free (b : byte) : nul_free (hex_token b).
Proof. destruct b; repeat constructor; discriminate. Qed.

Lemma hex_tokens_length (B : list byte) :
  length (concat (map hex_token B)) = (5 * length B)%nat.
Proof.
  induction B as [|b B IH]; simpl; [reflexivity|]. rewrite IH. lia.
Qed.

(** A row of tokens reads back as the bytes it was made from. *)
Lemma parse_hex_tokens (B : list byte) :
  parse_hex_body (concat (map hex_token B)) = Some B.
Proof.
  induction B as [|b B IH]; [reflexivity|].
  change (concat (map hex_token (b :: B)))
    with (hex_token b ++ concat (map hex_token B)).
  destruct b; simpl; rewrite IH; reflexivity.
Qed.

(** ** The timestamp *)

Lemma strftime_text_timestamp (t : tm) :
  tm_in_range t →
  strftime_text (lit "[%Y-%m-%d %H:%M:%S] ") t = spec_timestamp t.
Proof.
  intros (Hs & Hm & Hh & Hd & Hmo & Hy).
  change (strftime_text (lit "[%Y-%m-%d %H:%M:%S] ") t)
    with (lit "[" ++ decimal (tm_year t + 1900) ++ lit "-"
            ++ pad2 (tm_mon t + 1) ++ lit "-" ++ pad2 (tm_mday t)
            ++ lit " " ++ pad2 (tm_hour t) ++ lit ":" ++ pad2 (tm_min t)
            ++ lit ":" ++ pad2 (tm_sec t) ++ lit "] ").
  unfold spec_timestamp.
  rewrite decimal_four_digits by lia.
  rewrite !pad2_two_digits by lia. reflexivity.
Qed.

Lemma spec_timestamp_length (t : tm) : length (spec_timestamp t) = 22%nat.
Proof. reflexivity. Qed.

Lemma spec_timestamp_nul_free (t : tm) :
  tm_in_range t → nul_free (spec_timestamp t).
Proof.
  intros (Hs & Hm & Hh & Hd & Hmo & Hy). unfold spec_timestamp.
  repeat (apply Forall_app; split);
    try (apply two_digits_nul_free; lia);
    try (apply four_digits_nul_free; lia);
    repeat constructor; discriminate.
Qed.

(** ** The file system *)

(** The file model tells an append from other writes: a store at the
    start of a file replaces its first bytes, [CREATE_ALWAYS] empties an
    existing file, and [OPEN_ALWAYS] leaves it as it is. *)
Example write_at_start_overwrites :
  write_at 0 (lit "NEW") (lit "old log") = lit "NEW log".
Proof. reflexivity. Qed.

Example CREATE_ALWAYS_truncates :
  contents (CreateFile "log.txt" CREATE_ALWAYS world_log).2 "log.txt" = [].
Proof. vm_compute. reflexivity. Qed.

Example OPEN_ALWAYS_keeps :
  CreateFile "log.txt" OPEN_ALWAYS world_log
  = (FileHandle "log.txt" 0, world_log).
Proof. vm_compute. reflexivity. Qed.

(** Two paths that name one file reach the same bytes. *)
Example one_file_two_names :
  WriteDebugInfoStr "LOG.TXT" (literal "!") world_log
  = Ok (set_file "log.txt" (lit "old!") world_log).
Proof. vm_compute. reflexivity. Qed.

Lemma bind_Ok {A B : Type} (a : A) (k : A → result B) : (Ok a ≫= k) = k a.
Proof. reflexivity. Qed.

Lemma bind_Undefined {A B : Type} (f : fault) (k : A → result B) :
  (Undefined f ≫= k) = Undefined f.
Proof. reflexivity. Qed.

Lemma contents_set_file path bytes w :
  contents (set_file path bytes w) path = bytes.
Proof. unfold contents, set_file; simpl. rewrite lookup_insert_eq. reflexivity. Qed.

Lemma set_file_twice path a b w :
  set_file path a (set_file path b w) = set_file path a w.
Proof. unfold set_file; simpl. rewrite insert_insert_eq. reflexivity. Qed.

Lemma write_at_end (data old : list ascii) :
  write_at (length old) data old = old ++ data.
Proof.
  unfold write_at. rewrite firstn_all, Nat.sub_diag. simpl.
  rewrite drop_ge by lia. rewrite app_nil_r. reflexivity.
Qed.

Lemma write_at_start (data old : list ascii) :
  write_at 0 data old = data ++ drop (length data) old.
Proof. reflexivity. Qed.

Lemma CreateFile_clock path d w h w1 :
  CreateFile path d w = (h, w1) → clock w1 = clock w ∧ denied w1 = denied w.
Proof.
  unfold CreateFile. destruct (decide (path ∈ denied w)).
  - intros [= <- <-]. auto.
  - destruct d, (files w !! file_of w path); intros [= <- <-]; auto.
Qed.

Lemma written_fits (rec old : list ascii) :
  Z.of_nat (length old) < 4294967296 → written rec old = old ++ rec.
Proof. intros H. unfold written. rewrite decide_True by exact H. reflexivity. Qed.

(** A log of 4 GiB or more is not appended to: the record replaces its
    first bytes. *)
Lemma written_full (rec old : list ascii) :
  4294967296 ≤ Z.of_nat (length old) →
  written rec old = rec ++ drop (length rec) old.
Proof.
  intros H. unfold written. rewrite decide_False by lia. apply write_at_start.
Qed.

Lemma contents_write_record path rec w :
  path ∉ denied w → log_fits w path →
  contents (write_record path rec w) path = contents w path ++ rec.
Proof.
  intros Hp Hfit. unfold write_record.
  rewrite decide_False by exact Hp.
  rewrite contents_set_file. apply written_fits. exact Hfit.
Qed.

Lemma write_record_denied path rec w :
  path ∈ denied w → write_record path rec w = w.
Proof. intros Hp. unfold write_record. rewrite decide_True; done. Qed.

(** A record changes no other file, no permission and not the clock;
    in a log that fits the pointer what the file held stays in front. *)
Lemma write_record_frame path rec w :
  (log_fits w path →
   ∃ rec', contents (write_record path rec w) path = contents w path ++ rec')
  ∧ (∀ f, f ≠ file_of w path →
          files (write_record path rec w) !! f = files w !! f)
  ∧ denied (write_record path rec w) = denied w
  ∧ clock (write_record path rec w) = clock w.
Proof.
  unfold write_record. destruct (decide (path ∈ denied w)) as [Hp|Hp].
  - split; [intros _; exists []; rewrite app_nil_r; reflexivity | auto].
  - split.
    + intros Hfit. exists rec. rewrite contents_set_file.
      apply written_fits. exact Hfit.
    + split; [|auto]. intros f Hf. simpl. apply lookup_insert_ne. congruence.
Qed.

(** Open or create, seek to the end, write the string of [buf], close. *)
Lemma open_seek_write_close path buf n w h w1 :
  CreateFile path OPEN_ALWAYS w = (h, w1) →
  strlen buf = Ok n →
  (n ← strlen buf;
   '(hFile, w2) ← WriteFile (SetFilePointer h 0 FILE_END w1) buf n w1;
   Ok (CloseHandle hFile w2))
  = Ok (write_record path (take n (cells buf)) w).
Proof.
  intros HC Hn. rewrite Hn, bind_Ok.
  assert (Hle : (n ≤ length (cells buf))%nat).
  { unfold strlen in Hn. destruct (scan_nul (cells buf)) as [m|] eqn:E;
      [|discriminate].
    injection Hn as <-. apply scan_nul_lt in E. lia. }
  unfold CreateFile in HC. unfold write_record, written.
  destruct (decide (path ∈ denied w)) as [Hp|Hp].
  - injection HC as <- <-. reflexivity.
  - destruct (files w !! file_of w path) as [old|] eqn:Hold;
      injection HC as <- <-.
    + assert (Hc : contents w path = old)
        by (unfold contents; rewrite Hold; reflexivity).
      unfold SetFilePointer. rewrite Hc, Z.add_0_r.
      destruct (Z.ltb_spec (Z.of_nat (length old)) 0) as [?|_]; [lia|].
      destruct (decide (Z.of_nat (length old) < 4294967296)) as [Hfit|Hfull].
      * destruct (Z.leb_spec 4294967296 (Z.of_nat (length old))) as [?|_];
          [lia|].
        cbn [orb]. rewrite Nat2Z.id. unfold WriteFile.
        rewrite decide_True by exact Hle. rewrite bind_Ok, Hc, write_at_end.
        reflexivity.
      * destruct (Z.leb_spec 4294967296 (Z.of_nat (length old))) as [_|?];
          [|lia].
        cbn [orb]. unfold WriteFile.
        rewrite decide_True by exact Hle. rewrite bind_Ok, Hc. reflexivity.
    + assert (Hc : contents w path = [])
        by (unfold contents; rewrite Hold; reflexivity).
      rewrite Hc. rewrite decide_True by (simpl; lia).
      unfold SetFilePointer, WriteFile.
      rewrite contents_set_file. simpl.
      rewrite decide_True by exact Hle. rewrite bind_Ok.
      rewrite contents_set_file, set_file_twice.
      change (Z.to_nat (Z.of_nat 0 + 0)) with (length (@nil ascii)).
      rewrite write_at_end. reflexivity.
Qed.

Lemma open_seek_write_close_holds path buf name size s w h w1 :
  CreateFile path OPEN_ALWAYS w = (h, w1) →
  holds buf name size s →
  (n ← strlen buf;
   '(hFile, w2) ← WriteFile (SetFilePointer h 0 FILE_END w1) buf n w1;
   Ok (CloseHandle hFile w2))
  = Ok (write_record path s w).
Proof.
  intros HC Hb.
  rewrite (open_seek_write_close _ _ _ _ _ _ HC (holds_strlen _ _ _ _ Hb)).
  destruct Hb as (_ & _ & _ & r & ->). rewrite take_app_length. reflexivity.
Qed.

(** ** The steps of the hex dump *)

Lemma local_length name n : length (cells (local name n)) = n.
Proof. unfold local, uninit; simpl. rewrite length_map, length_seq. reflexivity. Qed.

Lemma poke_first_nul b :
  (0 < length (cells b))%nat →
  ∃ b', poke b 0 NUL = Ok b' ∧ holds b' (arr_name b) (length (cells b)) [].
Proof.
  intros H. unfold poke. rewrite decide_True by exact H.
  eexists; split; [reflexivity|]. unfold holds; simpl.
  destruct (cells b) as [|c r]; [simpl in H; lia|]. simpl.
  repeat split; [constructor | exists r; reflexivity].
Qed.

Lemma GetCurrentTimeWrapped_ok timeStr w :
  tm_in_range (localtime (clock w)) →
  (64 ≤ length (cells timeStr))%nat →
  ∃ b', GetCurrentTimeWrapped timeStr w = Ok b'
        ∧ holds b' (arr_name timeStr) (length (cells timeStr))
            (spec_timestamp (localtime (clock w))).
Proof.
  intros Ht Hlen. unfold GetCurrentTimeWrapped, strftime, time. cbv zeta.
  rewrite strftime_text_timestamp by exact Ht.
  rewrite decide_True by (rewrite spec_timestamp_length; lia).
  destruct (poke_text_ok timeStr (spec_timestamp (localtime (clock w))))
    as (b' & Hb & Hh); [rewrite spec_timestamp_length; lia|].
  exists b'. split; [exact Hb|].
  rewrite until_nul_id in Hh by (apply spec_timestamp_nul_free; exact Ht).
  exact Hh.
Qed.

Lemma direction_tag_ok (sender : Z) :
  ∃ b', (if sender =? 1 then strcpy (init "logType" 10 "") (literal "C->S ")
         else strcpy (init "logType" 10 "") (literal "S->C ")) = Ok b'
        ∧ holds b' "logType" 10 (spec_direction_tag sender).
Proof.
  unfold spec_direction_tag.
  destruct (Z.eqb_spec sender 1) as [->|Hne].
  - rewrite decide_True by reflexivity.
    eapply strcpy_ok; [apply holds_literal|simpl; lia].
    repeat constructor; discriminate.
  - rewrite decide_False by exact Hne.
    eapply strcpy_ok; [apply holds_literal|simpl; lia].
    repeat constructor; discriminate.
Qed.

Lemma hex_token_ok (b : byte) :
  ∃ b', wsprintf_0x02X (local "lpszTemp" 16) b = Ok b'
        ∧ holds b' "lpszTemp" 16 (hex_token b).
Proof.
  destruct (poke_text_ok (local "lpszTemp" 16) (hex_token b))
    as (b' & Hb & Hh); [rewrite local_length, hex_token_length; lia|].
  exists b'. split; [exact Hb|].
  rewrite until_nul_id, local_length in Hh by apply hex_token_nul_free.
  exact Hh.
Qed.

Lemma take_S_drop {A} (l : list A) (j n : nat) (x : A) :
  l !! j = Some x → take (S n) (drop j l) = x :: take n (drop (S j) l).
Proof. intros H. rewrite (drop_S _ _ _ H). reflexivity. Qed.

Lemma HexWrite_loop_ok pBuffer name size :
  ∀ (n j : nat) (lpszStr : cbuf) (s : list ascii),
    holds lpszStr name size s →
    (j + n ≤ length pBuffer)%nat →
    (length s + 5 * n < size)%nat →
    ∃ b', HexWrite_loop pBuffer n j lpszStr = Ok b'
          ∧ holds b' name size
              (s ++ concat (map hex_token (take n (drop j pBuffer)))).
Proof.
  induction n as [|n IH]; intros j lpszStr s Hs Hj Hfit.
  - exists lpszStr. split; [reflexivity|].
    rewrite take_0. simpl. rewrite app_nil_r. exact Hs.
  - destruct (lookup_lt_is_Some_2 pBuffer j ltac:(lia)) as [b Hb].
    cbn [HexWrite_loop]. rewrite Hb.
    destruct (hex_token_ok b) as (tmp & -> & Htmp). rewrite bind_Ok.
    destruct (strcat_ok _ _ _ _ _ _ _ _ Hs Htmp) as (l1 & -> & Hl1);
      [rewrite hex_token_length; lia|].
    rewrite bind_Ok.
    destruct (IH (S j) l1 _ Hl1) as (b' & Hrun & Hb');
      [lia | rewrite length_app, hex_token_length; lia |].
    exists b'. split; [exact Hrun|].
    rewrite (take_S_drop _ _ _ _ Hb). simpl.
    rewrite <- app_assoc in Hb'. exact Hb'.
Qed.

Lemma HexWrite_loop_overrun pBuffer name size :
  ∀ (n j : nat) (lpszStr : cbuf) (s : list ascii),
    holds lpszStr name size s →
    (j + n ≤ length pBuffer)%nat →
    (size ≤ length s + 5 * n)%nat →
    HexWrite_loop pBuffer n j lpszStr = Undefined (WritePastEnd name size).
Proof.
  induction n as [|n IH]; intros j lpszStr s Hs Hj Hover.
  - pose proof (holds_length _ _ _ _ Hs). lia.
  - destruct (lookup_lt_is_Some_2 pBuffer j ltac:(lia)) as [b Hb].
    cbn [HexWrite_loop]. rewrite Hb.
    destruct (hex_token_ok b) as (tmp & -> & Htmp). rewrite bind_Ok.
    destruct (le_lt_dec size (length s + 5)) as [Hnow|Hlater].
    + rewrite (strcat_overrun _ _ _ _ _ _ _ _ Hs Htmp)
        by (rewrite hex_token_length; lia).
      reflexivity.
    + destruct (strcat_ok _ _ _ _ _ _ _ _ Hs Htmp) as (l1 & -> & Hl1);
        [rewrite hex_token_length; lia|].
      rewrite bind_Ok. apply (IH (S j) l1 _ Hl1); [lia|].
      rewrite length_app, hex_token_length. lia.
Qed.

(** [DebugAngel_HexWrite] up to its loop: [lpszStr] holds the timestamp
    and the direction tag. *)
Lemma HexWrite_before_loop path pBuffer iSize sender w :
  tm_in_range (localtime (clock w)) →
  ∃ lpszStr,
    holds lpszStr "lpszStr" 1024
      (spec_timestamp (localtime (clock w)) ++ spec_direction_tag sender)
    ∧ DebugAngel_HexWrite path pBuffer iSize sender w
      = let '(hFile, w1) := CreateFile path OPEN_ALWAYS w in
        lpszStr ← HexWrite_loop pBuffer (Z.to_nat iSize) 0 lpszStr;
        lpszStr ← strcat lpszStr (literal CRLF);
        n ← strlen lpszStr;
        '(hFile, w2) ←
          WriteFile (SetFilePointer hFile 0 FILE_END w1) lpszStr n w1;
        Ok (CloseHandle hFile w2).
Proof.
  intros Ht. unfold DebugAngel_HexWrite.
  destruct (CreateFile path OPEN_ALWAYS w) as [h w1] eqn:HC.
  destruct (CreateFile_clock _ _ _ _ _ HC) as [Hclock _].
  destruct (poke_first_nul (local "lpszStr" 1024)) as (l0 & -> & Hl0);
    [rewrite local_length; lia|].
  rewrite local_length in Hl0. rewrite bind_Ok.
  destruct (GetCurrentTimeWrapped_ok (local "timeStr" 64) w1)
    as (ts & -> & Hts); [rewrite Hclock; exact Ht | rewrite local_length; lia |].
  rewrite bind_Ok, Hclock in *.
  destruct (strcat_ok _ _ _ _ _ _ _ _ Hl0 Hts) as (l1 & -> & Hl1);
    [rewrite spec_timestamp_length; simpl; lia|].
  rewrite bind_Ok.
  destruct (direction_tag_ok sender) as (tag & -> & Htag). rewrite bind_Ok.
  destruct (strcat_ok _ _ _ _ _ _ _ _ Hl1 Htag) as (l2 & -> & Hl2).
  { rewrite length_app, spec_timestamp_length. unfold spec_direction_tag.
    destruct (decide (sender = 1)); simpl; lia. }
  rewrite bind_Ok. exists l2. split; [exact Hl2 | reflexivity].
Qed.

Lemma spec_direction_tag_length (sender : Z) :
  length (spec_direction_tag sender) = 5%nat.
Proof. unfold spec_direction_tag. destruct (decide (sender = 1)); reflexivity. Qed.

Lemma crlf_holds : holds (literal CRLF) "literal" 3 [CR; LF].
Proof.
  apply (holds_literal CRLF).
  repeat constructor; intros H; vm_compute in H; discriminate.
Qed.

Lemma spec_hex_record_length t B sender :
  length (spec_hex_record t B sender) = (22 + 5 + 5 * length B + 2)%nat.
Proof.
  unfold spec_hex_record.
  rewrite !length_app, spec_timestamp_length, spec_direction_tag_length,
    hex_tokens_length.
  simpl. lia.
Qed.

(** ** The three entry points *)

Lemma WriteDebugInfoStr_ok path buf n w :
  strlen buf = Ok n →
  WriteDebugInfoStr path buf w
  = Ok (write_record path (take n (cells buf)) w).
Proof.
  intros Hn. unfold WriteDebugInfoStr.
  destruct (CreateFile path OPEN_ALWAYS w) as [h w1] eqn:HC.
  exact (open_seek_write_close _ _ _ _ _ _ HC Hn).
Qed.

Lemma WriteDebugInfoStr_holds path buf name size s w :
  holds buf name size s →
  WriteDebugInfoStr path buf w = Ok (write_record path s w).
Proof.
  intros Hb. rewrite (WriteDebugInfoStr_ok _ _ _ _ (holds_strlen _ _ _ _ Hb)).
  destruct Hb as (_ & _ & _ & r & ->). rewrite take_app_length. reflexivity.
Qed.

Lemma Write_ok path lpszFormat va w :
  (length (wvsprintf_text lpszFormat va) < 1024)%nat →
  DebugAngel_Write path (VStr lpszFormat :: va) w
  = Ok (write_record path (until_nul (wvsprintf_text lpszFormat va)) w).
Proof.
  intros Hfit. unfold DebugAngel_Write, wvsprintf.
  destruct (poke_text_ok (local "lpszBuffer" 1024)
              (wvsprintf_text lpszFormat va)) as (b & -> & Hb);
    [rewrite local_length; exact Hfit|].
  rewrite bind_Ok. exact (WriteDebugInfoStr_holds _ _ _ _ _ _ Hb).
Qed.

Lemma HexWrite_ok path pBuffer iSize sender w :
  tm_in_range (localtime (clock w)) →
  iSize ≤ 198 → iSize ≤ Z.of_nat (length pBuffer) →
  DebugAngel_HexWrite path pBuffer iSize sender w
  = Ok (write_record path
          (spec_hex_record (localtime (clock w))
             (take (Z.to_nat iSize) pBuffer) sender) w).
Proof.
  intros Ht Hsize Hbuf.
  destruct (HexWrite_before_loop path pBuffer iSize sender w Ht)
    as (l & Hl & ->).
  destruct (CreateFile path OPEN_ALWAYS w) as [h w1] eqn:HC.
  destruct (HexWrite_loop_ok pBuffer _ _ (Z.to_nat iSize) 0 l _ Hl)
    as (l1 & -> & Hl1); [lia | |].
  { rewrite length_app, spec_timestamp_length, spec_direction_tag_length. lia. }
  rewrite bind_Ok.
  destruct (strcat_ok _ _ _ _ _ _ _ _ Hl1 crlf_holds) as (l2 & -> & Hl2).
  { rewrite !length_app, spec_timestamp_length, spec_direction_tag_length,
      hex_tokens_length, length_take. simpl. lia. }
  rewrite bind_Ok.
  rewrite (open_seek_write_close_holds _ _ _ _ _ _ _ _ HC Hl2).
  unfold spec_hex_record. rewrite drop_0, <- !app_assoc. reflexivity.
Qed.

Lemma HexWrite_overrun path pBuffer iSize sender w :
  tm_in_range (localtime (clock w)) →
  199 ≤ iSize → iSize ≤ Z.of_nat (length pBuffer) →
  DebugAngel_HexWrite path pBuffer iSize sender w
  = Undefined (WritePastEnd "lpszStr" 1024).
Proof.
  intros Ht Hsize Hbuf.
  destruct (HexWrite_before_loop path pBuffer iSize sender w Ht)
    as (l & Hl & ->).
  destruct (CreateFile path OPEN_ALWAYS w) as [h w1] eqn:HC.
  assert (Hlen : length (spec_timestamp (localtime (clock w))
                         ++ spec_direction_tag sender) = 27%nat).
  { rewrite length_app, spec_timestamp_length, spec_direction_tag_length. lia. }
  destruct (Z.eq_dec iSize 199) as [->|Hmore].
  - destruct (HexWrite_loop_ok pBuffer _ _ (Z.to_nat 199) 0 l _ Hl)
      as (l1 & -> & Hl1); [lia | rewrite Hlen; lia |].
    rewrite bind_Ok.
    rewrite (strcat_overrun _ _ _ _ _ _ _ _ Hl1 crlf_holds); [reflexivity|].
    rewrite length_app, Hlen, hex_tokens_length, length_take.
    rewrite length_drop. simpl length. lia.
  - rewrite (HexWrite_loop_overrun pBuffer _ _ (Z.to_nat iSize) 0 l _ Hl);
      [reflexivity | lia | rewrite Hlen; lia].
Qed.

(** Whatever a call that returns did, it wrote one record to its file. *)
Lemma WriteDebugInfoStr_frame path buf w w' :
  WriteDebugInfoStr path buf w = Ok w' →
  ∃ rec, w' = write_record path rec w.
Proof.
  intros H. destruct (strlen buf) as [n|f] eqn:Hn.
  - rewrite (WriteDebugInfoStr_ok _ _ _ _ Hn) in H. injection H as <-. eauto.
  - unfold WriteDebugInfoStr in H.
    destruct (CreateFile path OPEN_ALWAYS w) as [h w1].
    rewrite Hn in H. discriminate.
Qed.

Lemma Write_frame path va w w' :
  DebugAngel_Write path va w = Ok w' → ∃ rec, w' = write_record path rec w.
Proof.
  unfold DebugAngel_Write. destruct va as [|[n|lpszFormat] va]; try discriminate.
  destruct (wvsprintf _ _ _) as [b|f]; [|discriminate].
  rewrite bind_Ok. apply WriteDebugInfoStr_frame.
Qed.

Lemma HexWrite_frame path pBuffer iSize sender w w' :
  DebugAngel_HexWrite path pBuffer iSize sender w = Ok w' →
  ∃ rec, w' = write_record path rec w.
Proof.
  unfold DebugAngel_HexWrite.
  destruct (CreateFile path OPEN_ALWAYS w) as [h w1] eqn:HC.
  destruct (poke _ _ _) as [l0|]; [rewrite bind_Ok|discriminate].
  destruct (GetCurrentTimeWrapped _ _) as [ts|]; [rewrite bind_Ok|discriminate].
  destruct (strcat l0 ts) as [l1|]; [rewrite bind_Ok|discriminate].
  destruct (if sender =? 1 then _ else _) as [tag|];
    [rewrite bind_Ok|discriminate].
  destruct (strcat l1 tag) as [l2|]; [rewrite bind_Ok|discriminate].
  destruct (HexWrite_loop _ _ _ _) as [l3|]; [rewrite bind_Ok|discriminate].
  destruct (strcat l3 _) as [l4|]; [rewrite bind_Ok|discriminate].
  destruct (strlen l4) as [n|f] eqn:Hn; [|discriminate].
  rewrite <- Hn, (open_seek_write_close _ _ _ _ _ _ HC Hn).
  intros [= <-]. eauto.
Qed.

Lemma scan_nul_until_nul (l : list ascii) :
  Exists (λ c, c = NUL) l →
  scan_nul l = Some (length (until_nul l))
  ∧ take (length (until_nul l)) l = until_nul l.
Proof.
  induction l as [|c l IH]; intros Hex; [inversion Hex|]. simpl.
  destruct (decide (c = NUL)) as [->|Hc]; [split; reflexivity|].
  inversion Hex as [? ? Hhd|? ? Htl]; subst; [contradiction|].
  destruct (IH Htl) as [-> Htake]. simpl. rewrite Htake. split; reflexivity.
Qed.

Lemma run_call_ok path c w :
  call_in_bounds (clock w, c) →
  run_call path c w = Ok (write_record path (spec_record (clock w, c)) w).
Proof.
  destruct c as [buf|va|pBuffer iSize sender]; simpl.
  - intros Hnul. destruct (scan_nul_until_nul _ Hnul) as [Hscan Htake].
    rewrite (WriteDebugInfoStr_ok path buf (length (until_nul (cells buf)))).
    + rewrite Htake. reflexivity.
    + unfold strlen. rewrite Hscan. reflexivity.
  - destruct va as [|[n|lpszFormat] va]; try contradiction.
    apply Write_ok.
  - intros (Ht & Hsize & Hbuf). apply HexWrite_ok; assumption.
Qed.

Lemma run_call_frame path c w w' :
  run_call path c w = Ok w' → ∃ rec, w' = write_record path rec w.
Proof.
  destruct c; simpl;
    eauto using WriteDebugInfoStr_frame, Write_frame, HexWrite_frame.
Qed.

(** For up to 198 bytes the hex dump appends the timestamp, the tag,
    one token of five characters per byte, and CR LF; the tokens read
    back as the bytes, in their order. *)
Lemma HexWrite_tokens path pBuffer sender w :
  path ∉ denied w → log_fits w path →
  tm_in_range (localtime (clock w)) →
  (length pBuffer ≤ 198)%nat →
  ∃ w' body,
    DebugAngel_HexWrite path pBuffer (Z.of_nat (length pBuffer)) sender w
    = Ok w'
    ∧ contents w' path
      = contents w path ++ spec_timestamp (localtime (clock w))
          ++ spec_direction_tag sender ++ body ++ [CR; LF]
    ∧ length body = (5 * length pBuffer)%nat
    ∧ parse_hex_body body = Some pBuffer.
Proof.
  intros Hp Hfit Ht HN. eexists. exists (concat (map hex_token pBuffer)).
  split; [apply HexWrite_ok; [exact Ht | lia | lia]|].
  rewrite contents_write_record by assumption.
  rewrite Nat2Z.id, firstn_all.
  split; [reflexivity|].
  split; [apply hex_tokens_length | apply parse_hex_tokens].
Qed.

(** ** Properties of the log *)

(** C2.  In every hex dump the direction code 1 gives the tag [C->S ]
    and every other integer gives [S->C ]; the call returns for either,
    and the tag stands between the timestamp and the hex tokens.  The
    line is found at the end of a log below 4 GiB. *)
Theorem C2_direction_tag path pBuffer iSize sender w :
  path ∉ denied w → log_fits w path →
  tm_in_range (localtime (clock w)) →
  iSize ≤ 198 → iSize ≤ Z.of_nat (length pBuffer) →
  ∃ w', DebugAngel_HexWrite path pBuffer iSize sender w = Ok w'
        ∧ contents w' path
          = contents w path ++ spec_timestamp (localtime (clock w))
              ++ (if decide (sender = 1) then lit "C->S " else lit "S->C ")
              ++ concat (map hex_token (take (Z.to_nat iSize) pBuffer))
              ++ [CR; LF].
Proof.
  intros Hp Hfit Ht Hsize Hbuf. eexists. split.
  - apply HexWrite_ok; assumption.
  - rewrite contents_write_record by assumption. reflexivity.
Qed.

(** C4, amended.  The timestamp is a function of the clock reading and
    the time zone alone: whatever the array held before and whatever the
    files are, the same reading gives the same string, which is
    [[YYYY-MM-DD HH:MM:SS] ] with zero padded fields and has 22
    characters. *)
Theorem C4_timestamp_of_instant (b1 b2 : cbuf) (w1 w2 : World) :
  clock w1 = clock w2 →
  tm_in_range (localtime (clock w1)) →
  (64 ≤ length (cells b1))%nat → (64 ≤ length (cells b2))%nat →
  ∃ s, (GetCurrentTimeWrapped b1 w1 ≫= c_str) = Ok s
       ∧ (GetCurrentTimeWrapped b2 w2 ≫= c_str) = Ok s
       ∧ s = spec_timestamp (localtime (clock w1))
       ∧ length s = 22%nat.
Proof.
  intros Hclock Ht H1 H2.
  destruct (GetCurrentTimeWrapped_ok b1 w1 Ht H1) as (t1 & -> & Ht1).
  rewrite Hclock in Ht.
  destruct (GetCurrentTimeWrapped_ok b2 w2 Ht H2) as (t2 & -> & Ht2).
  rewrite !bind_Ok, Hclock.
  rewrite (holds_c_str _ _ _ _ Ht1), (holds_c_str _ _ _ _ Ht2), Hclock.
  eexists. repeat split.
Qed.

(** C5.  When the path can be opened and the rendered text fits the
    1024 characters of [lpszBuffer], [DebugAngel_Write] appends the
    rendered string (the text up to its terminator) and nothing else:
    no timestamp, no tag, no line end.  The log is one below 4 GiB. *)
Theorem C5_Write_appends_rendered_text path lpszFormat va w :
  path ∉ denied w → log_fits w path →
  (length (wvsprintf_text lpszFormat va) < 1024)%nat →
  ∃ w', DebugAngel_Write path (VStr lpszFormat :: va) w = Ok w'
        ∧ contents w' path
          = contents w path ++ until_nul (wvsprintf_text lpszFormat va).
Proof.
  intros Hp Hlog Hfit. eexists. split.
  - apply Write_ok. exact Hfit.
  - apply contents_write_record; assumption.
Qed.

(** C6.  The hex dump of the bytes 41 00 FF with direction 1 at local
    time 2024-01-02 03:04:05 appends the line
    [[2024-01-02 03:04:05] C->S 0x41 0x00 0xFF ] and CR LF to a log
    below 4 GiB. *)
Theorem C6_scenario path w :
  path ∉ denied w → log_fits w path →
  localtime (clock w) = Tm 5 4 3 2 0 124 →
  ∃ w', DebugAngel_HexWrite path [x41; x00; xff]%byte 3 1 w = Ok w'
        ∧ contents w' path
          = contents w path
              ++ lit "[2024-01-02 03:04:05] C->S 0x41 0x00 0xFF " ++ [CR; LF].
Proof.
  intros Hp Hfit Htm. eexists. split.
  - apply HexWrite_ok; [rewrite Htm; unfold tm_in_range; simpl; lia | lia |].
    simpl. lia.
  - rewrite contents_write_record by assumption. rewrite Htm. reflexivity.
Qed.

(** C7.  A hex dump of no bytes with a direction other than 1 appends
    the timestamp, the tag [S->C ] and CR LF, and no hex token, to a
    log below 4 GiB. *)
Theorem C7_empty_dump path pBuffer sender w :
  path ∉ denied w → log_fits w path →
  tm_in_range (localtime (clock w)) →
  sender ≠ 1 →
  ∃ w', DebugAngel_HexWrite path pBuffer 0 sender w = Ok w'
        ∧ contents w' path
          = contents w path ++ spec_timestamp (localtime (clock w))
              ++ lit "S->C " ++ [CR; LF].
Proof.
  intros Hp Hfit Ht Hne. eexists. split.
  - apply HexWrite_ok; [exact Ht | lia | lia].
  - rewrite contents_write_record by assumption.
    unfold spec_hex_record, spec_direction_tag.
    rewrite decide_False by exact Hne. reflexivity.
Qed.

(** C8.  On a path that cannot be opened no call changes anything:
    a call that returns hands back the world as it was, every file
    included, and has no result to report an error through; and a call
    that stays inside its arrays does return. *)
Theorem C8_open_failure_is_silent path c w :
  path ∈ denied w →
  (∀ w', run_call path c w = Ok w' → w' = w)
  ∧ (call_in_bounds (clock w, c) → run_call path c w = Ok w).
Proof.
  intros Hp. split.
  - intros w' Hrun.
    destruct (run_call_frame _ _ _ _ Hrun) as [rec ->].
    apply write_record_denied. exact Hp.
  - intros Hc. rewrite (run_call_ok path c w Hc).
    rewrite write_record_denied by exact Hp. reflexivity.
Qed.

(** C10.  With a timestamp of 22 characters the line for [N] bytes and
    its NUL take 22 + 5 + 5 N + 2 + 1 cells, which fit the 1024 cells of
    [lpszStr] exactly when [N <= 198]: up to 198 bytes the call runs
    without any access outside an array, and from 199 bytes on a store
    lands at cell 1024, past the end of [lpszStr]. *)
Theorem C10_lpszStr_bound path pBuffer sender w :
  tm_in_range (localtime (clock w)) →
  let N := length pBuffer in
  let run := DebugAngel_HexWrite path pBuffer (Z.of_nat N) sender w in
  let line := spec_hex_record (localtime (clock w)) pBuffer sender in
  (length line + 1 = 22 + 5 + 5 * N + 2 + 1)%nat
  ∧ ((length line + 1 ≤ 1024)%nat ↔ (N ≤ 198)%nat)
  ∧ ((N ≤ 198)%nat → run = Ok (write_record path line w))
  ∧ ((199 ≤ N)%nat → run = Undefined (WritePastEnd "lpszStr" 1024)).
Proof.
  intros Ht N run line.
  assert (Hlen : length line = (22 + 5 + 5 * N + 2)%nat)
    by apply spec_hex_record_length.
  split; [lia|]. split; [lia|]. split; intros HN; subst run line.
  - rewrite HexWrite_ok by (try exact Ht; lia).
    rewrite Nat2Z.id. subst N. rewrite firstn_all. reflexivity.
  - apply HexWrite_overrun; [exact Ht | lia | lia].
Qed.

(** ** Reading the log back *)

Lemma N_of_digit_char (d : Z) :
  0 ≤ d ≤ 9 → N_of_ascii (digit_char d) = Z.to_N (48 + d).
Proof.
  intros Hd. unfold digit_char. apply N_ascii_embedding. lia.
Qed.

Lemma digit_value_digit_char (d : Z) :
  0 ≤ d ≤ 9 → digit_value (digit_char d) = Some d.
Proof.
  intros Hd. unfold digit_value. rewrite N_of_digit_char by exact Hd.
  cbv zeta. rewrite Z2N.id by lia.
  destruct (Z.leb_spec 48 (48 + d)); [|lia].
  destruct (Z.leb_spec (48 + d) 57); [|lia].
  simpl. f_equal. lia.
Qed.

Lemma parse2_digits (a b : Z) :
  0 ≤ a ≤ 9 → 0 ≤ b ≤ 9 →
  parse2 (digit_char a) (digit_char b) = Some (10 * a + b).
Proof.
  intros Ha Hb. unfold parse2.
  rewrite !digit_value_digit_char by assumption. reflexivity.
Qed.

Lemma parse_timestamp_spec (t : tm) :
  tm_in_range t → parse_timestamp (spec_timestamp t) = Some t.
Proof.
  intros (Hs & Hm & Hh & Hd & Hmo & Hy). destruct t as [se mi ho da mo ye].
  simpl in *. unfold spec_timestamp, four_digits, two_digits.
  cbn [lit list_ascii_of_string app tm_sec tm_min tm_hour tm_mday tm_mon
       tm_year parse_timestamp].
  rewrite !parse2_digits by zlia. simpl.
  f_equal. f_equal; zlia.
Qed.

Lemma parse_tag_spec (sender : Z) :
  parse_tag (spec_direction_tag sender) = Some (bool_decide (sender = 1)).
Proof.
  unfold spec_direction_tag. destruct (decide (sender = 1)) as [H|H].
  - rewrite bool_decide_eq_true_2 by exact H. reflexivity.
  - rewrite bool_decide_eq_false_2 by exact H. reflexivity.
Qed.

Lemma parse_tokens_to_eol_spec (B : list byte) (tail : list ascii) :
  parse_tokens_to_eol (concat (map hex_token B) ++ CR :: LF :: tail)
  = Some (B, tail).
Proof.
  induction B as [|b B IH]; [reflexivity|].
  change (concat (map hex_token (b :: B)) ++ CR :: LF :: tail)
    with (hex_token b ++ (concat (map hex_token B) ++ CR :: LF :: tail)).
  destruct b; simpl; rewrite IH; reflexivity.
Qed.

Lemma parse_entry_spec (t : tm) (B : list byte) (sender : Z) tail :
  tm_in_range t →
  parse_entry (spec_hex_record t B sender ++ tail)
  = Some ((t, bool_decide (sender = 1), B), tail).
Proof.
  intros Ht. unfold parse_entry, spec_hex_record.
  rewrite <- !app_assoc.
  change ([CR; LF] ++ tail) with (CR :: LF :: tail).
  set (rest := concat (map hex_token B) ++ CR :: LF :: tail).
  assert (E1 : drop 22 (spec_timestamp t ++ spec_direction_tag sender ++ rest)
               = spec_direction_tag sender ++ rest)
    by (apply drop_app_length'; reflexivity).
  assert (E2 : drop 27 (spec_timestamp t ++ spec_direction_tag sender ++ rest)
               = rest).
  { change 27%nat with (22 + 5)%nat. rewrite <- drop_drop, E1.
    apply drop_app_length'. symmetry. apply spec_direction_tag_length. }
  rewrite E1, E2.
  rewrite (take_app_length' (spec_timestamp t)) by reflexivity.
  rewrite (take_app_length' (spec_direction_tag sender))
    by (symmetry; apply spec_direction_tag_length).
  rewrite parse_timestamp_spec, parse_tag_spec by exact Ht.
  subst rest. rewrite parse_tokens_to_eol_spec. reflexivity.
Qed.

Lemma parse_record_spec (t : tm) (B : list byte) (sender : Z) :
  tm_in_range t →
  parse_record (spec_hex_record t B sender)
  = Some (t, bool_decide (sender = 1), B).
Proof.
  intros Ht. unfold parse_record.
  rewrite <- (app_nil_r (spec_hex_record t B sender)).
  rewrite parse_entry_spec by exact Ht. reflexivity.
Qed.

Lemma parse_log_step (fuel : nat) (l : list ascii) :
  l ≠ [] →
  parse_log (S fuel) l
  = ('(e, tail) ← parse_entry l; es ← parse_log fuel tail; Some (e :: es)).
Proof. destruct l; [contradiction | reflexivity]. Qed.

Lemma parse_log_spec (ds : list dump) :
  Forall dump_in_bounds ds →
  ∀ fuel, (length ds ≤ fuel)%nat →
    parse_log fuel (concat (map dump_record ds)) = Some (map dump_entry ds).
Proof.
  induction 1 as [|[[t B] sender] ds [Ht _] _ IH]; intros fuel Hfuel.
  - destruct fuel; reflexivity.
  - destruct fuel as [|fuel]; [simpl in Hfuel; lia|].
    cbn [map concat dump_record dump_entry].
    rewrite parse_log_step.
    + rewrite parse_entry_spec by exact Ht.
      cbn [mbind option_bind]. rewrite IH by (simpl in Hfuel; lia).
      reflexivity.
    + intros Hnil. apply (f_equal length) in Hnil.
      rewrite length_app, spec_hex_record_length in Hnil. simpl in Hnil. lia.
Qed.

Lemma dump_records_length (ds : list dump) :
  (length ds ≤ length (concat (map dump_record ds)))%nat.
Proof.
  induction ds as [|[[t B] sender] ds IH]; [simpl; lia|].
  cbn [map concat dump_record].
  rewrite length_app, spec_hex_record_length. simpl. lia.
Qed.

Lemma run_calls_ok path cs :
  Forall call_in_bounds cs →
  ∀ w, path ∉ denied w →
    Z.of_nat (length (contents w path)
              + length (concat (map spec_record cs))) < 4294967296 →
    ∃ w', run_calls path cs w = Ok w'
          ∧ contents w' path
            = contents w path ++ concat (map spec_record cs).
Proof.
  induction 1 as [|[t c] cs Hc _ IH]; intros w Hp Hsize.
  - exists w. simpl. rewrite app_nil_r. auto.
  - cbn [run_calls]. rewrite (run_call_ok path c (at_time t w) Hc), bind_Ok.
    cbn [map concat] in Hsize. rewrite length_app in Hsize.
    assert (Hfit : log_fits (at_time t w) path)
      by (unfold log_fits; change (contents (at_time t w) path)
            with (contents w path); lia).
    pose proof (contents_write_record path (spec_record (t, c))
                  (at_time t w) Hp Hfit) as Hnow.
    change (contents (at_time t w) path) with (contents w path) in Hnow.
    destruct (write_record_frame path (spec_record (t, c)) (at_time t w))
      as (_ & _ & Hden & _).
    destruct (IH (write_record path (spec_record (t, c)) (at_time t w)))
      as (w' & Hrun & Hcont);
      [rewrite Hden; exact Hp | rewrite Hnow, length_app; lia |].
    exists w'. split; [exact Hrun|].
    rewrite Hcont, Hnow. simpl. rewrite <- app_assoc. reflexivity.
Qed.

Lemma dump_call_in_bounds (d : dump) :
  dump_in_bounds d → call_in_bounds (dump_call d).
Proof.
  destruct d as [[t B] sender]. intros [Ht HB]. simpl.
  split; [exact Ht|]. lia.
Qed.

Lemma dump_call_record (d : dump) :
  spec_record (dump_call d) = dump_record d.
Proof.
  destruct d as [[t B] sender]. simpl.
  rewrite Nat2Z.id, firstn_all. reflexivity.
Qed.

Lemma printable_digit_char (d : Z) :
  0 ≤ d ≤ 9 → printable (digit_char d) = true.
Proof.
  intros Hd. unfold printable. rewrite N_of_digit_char by exact Hd.
  cbv zeta. apply andb_true_intro. split; apply N.leb_le; lia.
Qed.

Lemma printable_timestamp (t : tm) :
  tm_in_range t → forallb printable (spec_timestamp t) = true.
Proof.
  intros (Hs & Hm & Hh & Hd & Hmo & Hy).
  unfold spec_timestamp, four_digits, two_digits.
  cbn [lit list_ascii_of_string app forallb].
  rewrite !printable_digit_char by zlia. reflexivity.
Qed.

Lemma printable_hex_tokens (B : list byte) :
  forallb printable (concat (map hex_token B)) = true.
Proof.
  induction B as [|b B IH]; [reflexivity|].
  change (concat (map hex_token (b :: B)))
    with (hex_token b ++ concat (map hex_token B)).
  rewrite forallb_app, IH. destruct b; reflexivity.
Qed.

(** ** More steps of the program *)

Lemma scan_nul_None (l : list ascii) : nul_free l → scan_nul l = None.
Proof.
  induction 1 as [|c l Hc _ IH]; simpl; [reflexivity|].
  rewrite decide_False by exact Hc. rewrite IH. reflexivity.
Qed.

Lemma c_str_write path buf s w :
  c_str buf = Ok s →
  WriteDebugInfoStr path buf w = Ok (write_record path s w).
Proof.
  unfold c_str. destruct (strlen buf) as [n|f] eqn:Hn; [|discriminate].
  rewrite bind_Ok. intros [= <-]. apply WriteDebugInfoStr_ok. exact Hn.
Qed.

Lemma contents_set_file_ne p q bytes w :
  file_of w p ≠ file_of w q →
  contents (set_file p bytes w) q = contents w q.
Proof.
  intros Hne. unfold contents, set_file; simpl.
  rewrite lookup_insert_ne by exact Hne. reflexivity.
Qed.

Lemma write_record_twice path s t w :
  Z.of_nat (length (contents w path) + length s) < 4294967296 →
  write_record path t (write_record path s w)
  = write_record path (s ++ t) w.
Proof.
  intros Hsize. unfold write_record.
  destruct (decide (path ∈ denied w)) as [Hp|Hp].
  - rewrite decide_True by exact Hp. reflexivity.
  - simpl. rewrite decide_False by exact Hp.
    rewrite contents_set_file, set_file_twice.
    rewrite (written_fits s) by lia.
    rewrite !written_fits by (rewrite ?length_app; lia).
    rewrite <- app_assoc. reflexivity.
Qed.

Lemma write_record_commute p q s t w :
  file_of w p ≠ file_of w q →
  write_record q t (write_record p s w)
  = write_record p s (write_record q t w).
Proof.
  intros Hne. unfold write_record.
  destruct (decide (p ∈ denied w)) as [Hp|Hp],
           (decide (q ∈ denied w)) as [Hq|Hq]; simpl;
    rewrite ?(decide_True _ _ Hp), ?(decide_False _ _ Hp),
      ?(decide_True _ _ Hq), ?(decide_False _ _ Hq); try reflexivity.
  rewrite !contents_set_file_ne by congruence.
  unfold set_file; simpl. f_equal. apply insert_insert_ne. congruence.
Qed.

Lemma HexWrite_loop_read_past pBuffer name size :
  ∀ (n j : nat) (lpszStr : cbuf) (s : list ascii),
    holds lpszStr name size s →
    (j ≤ length pBuffer < j + n)%nat →
    (length s + 5 * (length pBuffer - j) < size)%nat →
    HexWrite_loop pBuffer n j lpszStr = Undefined (ReadPastEnd "pBuffer").
Proof.
  induction n as [|n IH]; intros j lpszStr s Hs Hj Hfit; [lia|].
  cbn [HexWrite_loop].
  destruct (pBuffer !! j) as [b|] eqn:Hb; [|reflexivity].
  apply lookup_lt_Some in Hb.
  destruct (hex_token_ok b) as (tmp & -> & Htmp). rewrite bind_Ok.
  destruct (strcat_ok _ _ _ _ _ _ _ _ Hs Htmp) as (l1 & -> & Hl1);
    [rewrite hex_token_length; lia|].
  rewrite bind_Ok. apply (IH (S j) l1 _ Hl1); [lia|].
  rewrite length_app, hex_token_length. lia.
Qed.

(** ** Further properties of the log *)

(** X1.  [WriteDebugInfoStr] writes the characters of the array before
    its first NUL and nothing after it; on an array without a NUL it
    reads past the end, whether or not the path can be opened. *)
Theorem X1_write_stops_at_terminator path buf w :
  WriteDebugInfoStr path buf w
  = if decide (NUL ∈ cells buf)
    then Ok (write_record path (until_nul (cells buf)) w)
    else Undefined (ReadPastEnd (arr_name buf)).
Proof.
  destruct (decide (NUL ∈ cells buf)) as [Hin|Hnot].
  - assert (Hex : Exists (λ c, c = NUL) (cells buf)).
    { apply Exists_exists. exists NUL. split; [exact Hin | reflexivity]. }
    destruct (scan_nul_until_nul _ Hex) as [Hscan Htake].
    rewrite (WriteDebugInfoStr_ok path buf (length (until_nul (cells buf)))).
    + rewrite Htake. reflexivity.
    + unfold strlen. rewrite Hscan. reflexivity.
  - assert (Hfree : nul_free (cells buf)).
    { apply Forall_forall. intros c Hc ->. contradiction. }
    unfold WriteDebugInfoStr.
    destruct (CreateFile path OPEN_ALWAYS w) as [h w1].
    unfold strlen. rewrite (scan_nul_None _ Hfree). reflexivity.
Qed.

(** X2.  A size of zero or less is taken as no bytes at all, whatever
    the buffer: the dump appends the timestamp, the tag and CR LF to a
    log below 4 GiB. *)
Theorem X2_nonpositive_size path pBuffer iSize sender w :
  iSize ≤ 0 →
  path ∉ denied w → log_fits w path →
  tm_in_range (localtime (clock w)) →
  ∃ w', DebugAngel_HexWrite path pBuffer iSize sender w = Ok w'
        ∧ contents w' path
          = contents w path ++ spec_timestamp (localtime (clock w))
              ++ spec_direction_tag sender ++ [CR; LF].
Proof.
  intros Hsize Hp Hfit Ht. eexists. split.
  - apply HexWrite_ok; [exact Ht | lia | lia].
  - rewrite contents_write_record by assumption.
    replace (Z.to_nat iSize) with 0%nat by lia. reflexivity.
Qed.

(** X3.  The size is not checked against the buffer: with a size
    beyond a buffer of up to 199 bytes the loop reads past the end of
    the buffer. *)
Theorem X3_size_beyond_buffer path pBuffer iSize sender w :
  tm_in_range (localtime (clock w)) →
  Z.of_nat (length pBuffer) < iSize →
  (length pBuffer ≤ 199)%nat →
  DebugAngel_HexWrite path pBuffer iSize sender w
  = Undefined (ReadPastEnd "pBuffer").
Proof.
  intros Ht Hsize Hbuf.
  destruct (HexWrite_before_loop path pBuffer iSize sender w Ht)
    as (l & Hl & ->).
  destruct (CreateFile path OPEN_ALWAYS w) as [h w1].
  rewrite (HexWrite_loop_read_past pBuffer _ _ (Z.to_nat iSize) 0 l _ Hl);
    [reflexivity | lia |].
  rewrite length_app, spec_timestamp_length, spec_direction_tag_length. lia.
Qed.

(** X4.  Only the first [iSize] bytes of the buffer count: two buffers
    that agree on them give the same outcome. *)
Theorem X4_reads_only_iSize_bytes path B1 B2 iSize sender w :
  tm_in_range (localtime (clock w)) →
  iSize ≤ Z.of_nat (length B1) → iSize ≤ Z.of_nat (length B2) →
  take (Z.to_nat iSize) B1 = take (Z.to_nat iSize) B2 →
  DebugAngel_HexWrite path B1 iSize sender w
  = DebugAngel_HexWrite path B2 iSize sender w.
Proof.
  intros Ht H1 H2 Htake. destruct (Z_le_gt_dec iSize 198) as [Hle|Hgt].
  - rewrite !HexWrite_ok by assumption. rewrite Htake. reflexivity.
  - rewrite !HexWrite_overrun by (try assumption; lia). reflexivity.
Qed.

(** X6.  The record of a hex dump is one line: printable characters
    only, so no NUL, CR or LF, up to the CR LF that ends it.  It is
    found at the end of a log below 4 GiB. *)
Theorem X6_record_is_one_line path pBuffer iSize sender w :
  path ∉ denied w → log_fits w path →
  tm_in_range (localtime (clock w)) →
  iSize ≤ 198 → iSize ≤ Z.of_nat (length pBuffer) →
  ∃ w' line,
    DebugAngel_HexWrite path pBuffer iSize sender w = Ok w'
    ∧ contents w' path = contents w path ++ line ++ [CR; LF]
    ∧ forallb printable line = true.
Proof.
  intros Hp Hfit Ht Hsize Hbuf.
  exists (write_record path
            (spec_hex_record (localtime (clock w))
               (take (Z.to_nat iSize) pBuffer) sender) w).
  exists (spec_timestamp (localtime (clock w)) ++ spec_direction_tag sender
            ++ concat (map hex_token (take (Z.to_nat iSize) pBuffer))).
  split; [apply HexWrite_ok; assumption|]. split.
  - rewrite contents_write_record by assumption.
    unfold spec_hex_record. rewrite <- !app_assoc. reflexivity.
  - rewrite !forallb_app, printable_timestamp, printable_hex_tokens
      by exact Ht.
    unfold spec_direction_tag. destruct (decide (sender = 1)); reflexivity.
Qed.

(** X7.  The timestamp reads back as the broken-down local time it was
    made from. *)
Theorem X7_timestamp_reads_back (b : cbuf) (w : World) :
  tm_in_range (localtime (clock w)) →
  (64 ≤ length (cells b))%nat →
  ∃ s, (GetCurrentTimeWrapped b w ≫= c_str) = Ok s
       ∧ parse_timestamp s = Some (localtime (clock w)).
Proof.
  intros Ht Hlen.
  destruct (GetCurrentTimeWrapped_ok b w Ht Hlen) as (b' & -> & Hb').
  rewrite bind_Ok, (holds_c_str _ _ _ _ Hb').
  eexists. split; [reflexivity|]. apply parse_timestamp_spec. exact Ht.
Qed.

(** X8.  The record of a hex dump, found at the end of a log below
    4 GiB, reads back as the local time of the call, its direction and
    the bytes dumped, in their order. *)
Theorem X8_record_reads_back path pBuffer iSize sender w :
  path ∉ denied w → log_fits w path →
  tm_in_range (localtime (clock w)) →
  iSize ≤ 198 → iSize ≤ Z.of_nat (length pBuffer) →
  ∃ w' rec,
    DebugAngel_HexWrite path pBuffer iSize sender w = Ok w'
    ∧ contents w' path = contents w path ++ rec
    ∧ parse_record rec
      = Some (localtime (clock w), bool_decide (sender = 1),
              take (Z.to_nat iSize) pBuffer).
Proof.
  intros Hp Hfit Ht Hsize Hbuf. eexists. eexists.
  split; [apply HexWrite_ok; assumption|]. split.
  - apply contents_write_record; assumption.
  - apply parse_record_spec. exact Ht.
Qed.

(** X9.  No call removes a file or changes which paths can be opened or
    what the clock shows, and after a call that returns the file of a
    path that can be opened exists, even when nothing was written. *)
Theorem X9_calls_keep_the_world path c w w' :
  run_call path c w = Ok w' →
  denied w' = denied w ∧ clock w' = clock w
  ∧ (∀ f, is_Some (files w !! f) → is_Some (files w' !! f))
  ∧ (path ∉ denied w → is_Some (files w' !! file_of w path)).
Proof.
  intros Hrun. destruct (run_call_frame _ _ _ _ Hrun) as [rec ->].
  unfold write_record. destruct (decide (path ∈ denied w)) as [Hp|Hp].
  - repeat split; auto. intros Hnot. contradiction.
  - simpl. repeat split.
    + intros f Hf. destruct (decide (file_of w path = f)) as [->|Hne].
      * rewrite lookup_insert_eq. eauto.
      * rewrite lookup_insert_ne by exact Hne. exact Hf.
    + intros _. rewrite lookup_insert_eq. eauto.
Qed.

(** X10.  Calls on paths that name different files do not interfere:
    made in either order they leave the same files. *)
Theorem X10_different_files_commute p q c1 c2 w :
  file_of w p ≠ file_of w q →
  call_in_bounds (clock w, c1) → call_in_bounds (clock w, c2) →
  (w1 ← run_call p c1 w; run_call q c2 w1)
  = (w2 ← run_call q c2 w; run_call p c1 w2).
Proof.
  intros Hne H1 H2.
  rewrite (run_call_ok p c1 w H1), (run_call_ok q c2 w H2), !bind_Ok.
  destruct (write_record_frame p (spec_record (clock w, c1)) w)
    as (_ & _ & _ & Hc1).
  destruct (write_record_frame q (spec_record (clock w, c2)) w)
    as (_ & _ & _ & Hc2).
  rewrite run_call_ok by (rewrite Hc1; exact H2).
  rewrite run_call_ok by (rewrite Hc2; exact H1).
  rewrite Hc1, Hc2. f_equal. apply write_record_commute. exact Hne.
Qed.

(** X11.  While the log stays below 4 GiB, two writes to one path are
    one write of the two strings joined: nothing is put between them. *)
Theorem X11_two_writes_are_one path b1 b2 b12 s1 s2 w :
  c_str b1 = Ok s1 → c_str b2 = Ok s2 → c_str b12 = Ok (s1 ++ s2) →
  Z.of_nat (length (contents w path) + length s1) < 4294967296 →
  (w1 ← WriteDebugInfoStr path b1 w; WriteDebugInfoStr path b2 w1)
  = WriteDebugInfoStr path b12 w.
Proof.
  intros H1 H2 H12 Hsize.
  rewrite (c_str_write path b1 s1 w H1), bind_Ok.
  rewrite (c_str_write path b2 s2 _ H2), (c_str_write path b12 _ w H12).
  rewrite write_record_twice by exact Hsize. reflexivity.
Qed.

(** X12.  A hex dump of [N] bytes makes a log below 4 GiB 29 + 5 N
    characters longer. *)
Theorem X12_growth path pBuffer iSize sender w :
  path ∉ denied w → log_fits w path →
  tm_in_range (localtime (clock w)) →
  iSize ≤ 198 → iSize ≤ Z.of_nat (length pBuffer) →
  ∃ w', DebugAngel_HexWrite path pBuffer iSize sender w = Ok w'
        ∧ length (contents w' path)
          = (length (contents w path) + 29 + 5 * Z.to_nat iSize)%nat.
Proof.
  intros Hp Hfit Ht Hsize Hbuf. eexists.
  split; [apply HexWrite_ok; assumption|].
  rewrite contents_write_record by assumption.
  rewrite length_app, spec_hex_record_length, length_take. lia.
Qed.

(** X13.  [GetCurrentTimeWrapped] tells [strftime] that the array has
    64 cells whatever its size: into an array of fewer than the 23 cells
    the timestamp and its NUL take, it stores past the end. *)
Theorem X13_timestamp_needs_23_cells (b : cbuf) (w : World) :
  tm_in_range (localtime (clock w)) →
  (length (cells b) < 23)%nat →
  GetCurrentTimeWrapped b w
  = Undefined (WritePastEnd (arr_name b) (length (cells b))).
Proof.
  intros Ht Hlen. unfold GetCurrentTimeWrapped, strftime, time. cbv zeta.
  rewrite strftime_text_timestamp by exact Ht.
  rewrite decide_True by (rewrite spec_timestamp_length; lia).
  apply poke_from_overrun.
  rewrite length_app, spec_timestamp_length. simpl. lia.
Qed.

(** X15.  A new log filled by hex dumps alone, in all less than 4 GiB
    of them, reads back as the calls made: one entry per call, in call
    order, each with the local time of its call, its direction and its
    bytes. *)
Theorem X15_log_reads_back path ds w :
  path ∉ denied w →
  contents w path = [] →
  Forall dump_in_bounds ds →
  Z.of_nat (length (concat (map dump_record ds))) < 4294967296 →
  ∃ w', run_calls path (map dump_call ds) w = Ok w'
        ∧ read_log (contents w' path) = Some (map dump_entry ds).
Proof.
  intros Hp Hnew Hds Hsize.
  assert (Hrec : map spec_record (map dump_call ds) = map dump_record ds).
  { rewrite map_map. apply map_ext. intros d. apply dump_call_record. }
  destruct (run_calls_ok path (map dump_call ds)) with (w := w)
    as (w' & Hrun & Hcont); [|exact Hp| |].
  { apply Forall_map. eapply Forall_impl; [exact Hds|].
    intros d Hd. apply dump_call_in_bounds. exact Hd. }
  { rewrite Hrec, Hnew. simpl. exact Hsize. }
  exists w'. split; [exact Hrun|].
  rewrite Hcont, Hnew, app_nil_l, Hrec.
  unfold read_log. apply parse_log_spec; [exact Hds|].
  apply dump_records_length.
Qed.

(** X16.  Below 4 GiB the log is only appended to: every call of
    [WriteDebugInfoStr], [DebugAngel_Write] or [DebugAngel_HexWrite] that
    returns leaves the bytes its file held in place and in front of what
    it added, and leaves every other file as it was; what a call inside
    its arrays adds to a file it can open is its one record. *)
Theorem X16_append_only_below_4GiB path c w w' :
  log_fits w path →
  run_call path c w = Ok w' →
  (∃ rec, contents w' path = contents w path ++ rec)
  ∧ (∀ f, f ≠ file_of w path → files w' !! f = files w !! f)
  ∧ (path ∉ denied w → call_in_bounds (clock w, c) →
     contents w' path = contents w path ++ spec_record (clock w, c)).
Proof.
  intros Hfit Hrun.
  pose proof (run_call_frame _ _ _ _ Hrun) as Happ.
  split; [|split].
  - destruct Happ as [rec ->]. apply write_record_frame. exact Hfit.
  - destruct Happ as [rec ->]. apply write_record_frame.
  - intros Hp Hc. rewrite (run_call_ok path c w Hc) in Hrun.
    injection Hrun as <-. apply contents_write_record; assumption.
Qed.

(** X17.  After a sequence of calls on one file that can be opened,
    each staying inside its arrays, and with the log below 4 GiB all
    along, the file holds what it held before followed by the records of
    the calls in call order. *)
Theorem X17_records_in_call_order_below_4GiB path cs w :
  path ∉ denied w →
  Forall call_in_bounds cs →
  Z.of_nat (length (contents w path)
            + length (concat (map spec_record cs))) < 4294967296 →
  ∃ w', run_calls path cs w = Ok w'
        ∧ contents w' path = contents w path ++ concat (map spec_record cs).
Proof.
  intros Hp Hcs Hsize. apply run_calls_ok; assumption.
Qed.

End DebugAngel.

(** ** The properties at concrete inputs *)

(** C1.  A dump of 199 bytes does not append 199 tokens: the store of
    the line's terminator goes to cell 1024 of [lpszStr], one past its
    end. *)
Theorem C1_dump_of_199_bytes_overruns :
  DebugAngel_HexWrite gmtime stack0 "log.txt" (replicate 199 x00%byte) 199 1
    world0
  = Undefined (WritePastEnd "lpszStr" 1024).
Proof. vm_compute. reflexivity. Qed.

(** The log of [world_4GiB]: 4 GiB of the letter a, and open to
    writing. *)
Lemma four_GiB_size : Z.of_nat four_GiB = 4294967296.
Proof. unfold four_GiB. apply Z2Nat.id. lia. Qed.

Lemma contents_world_4GiB (t : Z) :
  contents (at_time t world_4GiB) "log.txt" = replicate four_GiB "a"%char.
Proof.
  unfold contents.
  change (files (at_time t world_4GiB))
    with ({["log.txt" := replicate four_GiB "a"%char]}
          : gmap string (list ascii)).
  change (file_of (at_time t world_4GiB) "log.txt") with "log.txt"%string.
  rewrite lookup_singleton_eq. reflexivity.
Qed.

Lemma world_4GiB_first_byte (t : Z) :
  contents (at_time t world_4GiB) "log.txt" !! 0%nat = Some "a"%char.
Proof.
  rewrite contents_world_4GiB. apply lookup_replicate_2.
  pose proof four_GiB_size. lia.
Qed.

(** A record written to the log of [world_4GiB] replaces its first
    bytes. *)
Lemma world_4GiB_written (t : Z) (c : ascii) (r : list ascii) :
  contents (write_record "log.txt" (c :: r) (at_time t world_4GiB)) "log.txt"
    !! 0%nat = Some c.
Proof.
  unfold write_record.
  change (denied (at_time t world_4GiB)) with (∅ : gset string).
  rewrite decide_False by apply not_elem_of_empty.
  rewrite contents_set_file, written_full; [reflexivity|].
  rewrite contents_world_4GiB, length_replicate, four_GiB_size. lia.
Qed.

(** C3.  A call on a log of 4 GiB does not leave the bytes already
    present unchanged: the seek to the end fails, its result is not
    looked at, and the write replaces the first byte of the log. *)
Theorem C3_log_of_4GiB_is_overwritten :
  ∃ w', WriteDebugInfoStr "log.txt" (literal "X") world_4GiB = Ok w'
        ∧ contents world_4GiB "log.txt" !! 0%nat = Some "a"%char
        ∧ contents w' "log.txt" !! 0%nat = Some "X"%char
        ∧ ¬ ∃ rec, contents w' "log.txt"
                   = contents world_4GiB "log.txt" ++ rec.
Proof.
  pose proof (world_4GiB_first_byte 1704164645) as Hold.
  pose proof (world_4GiB_written 1704164645 "X"%char []) as Hnew.
  change (at_time 1704164645 world_4GiB) with world_4GiB in Hold, Hnew.
  exists (write_record "log.txt" (lit "X") world_4GiB).
  split; [apply c_str_write; vm_compute; reflexivity|].
  split; [exact Hold|]. split; [exact Hnew|].
  intros [rec Hrec].
  change (lit "X") with ["X"%char] in Hrec. rewrite Hrec in Hnew.
  rewrite lookup_app_l in Hnew.
  - rewrite Hold in Hnew. discriminate Hnew.
  - apply lookup_lt_Some in Hold. exact Hold.
Qed.

(** C9.  After one call on a log of 4 GiB the file is not what it held
    before followed by the record of the call: the record stands at the
    start of the file. *)
Theorem C9_record_lands_at_start_of_4GiB_log :
  ∃ w', run_calls gmtime plain_text stack0 "log.txt"
          [(1704164646, CallWrite [VStr "X"])] world_4GiB = Ok w'
        ∧ contents w' "log.txt" !! 0%nat = Some "X"%char
        ∧ contents w' "log.txt"
          ≠ contents world_4GiB "log.txt"
              ++ concat (map (spec_record gmtime plain_text)
                           [(1704164646, CallWrite [VStr "X"])]).
Proof.
  pose proof (world_4GiB_first_byte 1704164645) as Hold.
  change (at_time 1704164645 world_4GiB) with world_4GiB in Hold.
  pose proof (world_4GiB_written 1704164646 "X"%char []) as Hnew.
  exists (write_record "log.txt" (lit "X") (at_time 1704164646 world_4GiB)).
  split; [|split].
  - cbn [run_calls run_call].
    rewrite (Write_ok plain_text stack0 "log.txt" "X" []
               (at_time 1704164646 world_4GiB)) by (vm_compute; lia).
    reflexivity.
  - exact Hnew.
  - intros Hrec. change (lit "X") with ["X"%char] in Hrec.
    rewrite Hrec in Hnew. rewrite lookup_app_l in Hnew.
    + rewrite Hold in Hnew. discriminate Hnew.
    + apply lookup_lt_Some in Hold. exact Hold.
Qed.

Lemma C2_direction_tag_witness :
  ∃ w', DebugAngel_HexWrite gmtime stack0 "log.txt" bytes3 3 2 world_log
        = Ok w'
        ∧ contents w' "log.txt"
          = lit "old[2024-01-02 03:04:05] S->C 0x41 0x00 0xFF " ++ [CR; LF].
Proof.
  apply (C2_direction_tag gmtime stack0 "log.txt" bytes3 3 2 world_log).
  - vm_compute. discriminate.
  - vm_compute. reflexivity.
  - vm_compute. repeat split; discriminate.
  - lia.
  - simpl. lia.
Defined.

(** C4 as it was stated fails: at 2024-01-02 03:04:05 the timestamp is
    [[2024-01-02 03:04:05] ], which has 22 characters and not 21. *)
Lemma C4_counterexample :
  (GetCurrentTimeWrapped gmtime (uninit "timeStr" 64 (stack0 "timeStr")) world0
     ≫= c_str) = Ok (lit "[2024-01-02 03:04:05] ")
  ∧ length (lit "[2024-01-02 03:04:05] ") ≠ 21%nat.
Proof. split; [vm_compute; reflexivity | simpl; lia]. Qed.

Lemma C4_timestamp_of_instant_witness :
  ∃ s, (GetCurrentTimeWrapped gmtime (uninit "timeStr" 64 (stack0 "timeStr"))
          world0 ≫= c_str) = Ok s
       ∧ (GetCurrentTimeWrapped gmtime (CBuf "timeStr" (replicate 64 NUL))
            world_log ≫= c_str) = Ok s
       ∧ s = lit "[2024-01-02 03:04:05] "
       ∧ length s = 22%nat.
Proof.
  apply (C4_timestamp_of_instant gmtime
           (uninit "timeStr" 64 (stack0 "timeStr"))
           (CBuf "timeStr" (replicate 64 NUL)) world0 world_log).
  - reflexivity.
  - vm_compute. repeat split; discriminate.
  - simpl. lia.
  - simpl. lia.
Defined.

Lemma C5_Write_appends_rendered_text_witness :
  ∃ w', DebugAngel_Write plain_text stack0 "log.txt" [VStr "hello"] world_log
        = Ok w'
        ∧ contents w' "log.txt" = lit "oldhello".
Proof.
  apply (C5_Write_appends_rendered_text plain_text stack0 "log.txt" "hello"
           [] world_log).
  - vm_compute. discriminate.
  - vm_compute. reflexivity.
  - simpl. lia.
Defined.

Lemma C6_scenario_witness :
  ∃ w', DebugAngel_HexWrite gmtime stack0 "log.txt" [x41; x00; xff]%byte 3 1
          world0 = Ok w'
        ∧ contents w' "log.txt"
          = lit "[2024-01-02 03:04:05] C->S 0x41 0x00 0xFF " ++ [CR; LF].
Proof.
  apply (C6_scenario gmtime stack0 "log.txt" world0).
  - vm_compute. discriminate.
  - vm_compute. reflexivity.
  - vm_compute. reflexivity.
Defined.

Lemma C7_empty_dump_witness :
  ∃ w', DebugAngel_HexWrite gmtime stack0 "log.txt" [] 0 2 world0 = Ok w'
        ∧ contents w' "log.txt"
          = lit "[2024-01-02 03:04:05] S->C " ++ [CR; LF].
Proof.
  apply (C7_empty_dump gmtime stack0 "log.txt" [] 2 world0).
  - vm_compute. discriminate.
  - vm_compute. reflexivity.
  - vm_compute. repeat split; discriminate.
  - lia.
Defined.

Lemma C8_open_failure_is_silent_witness :
  run_call gmtime plain_text stack0 "log.txt" (CallHexWrite bytes3 3 1)
    world_denied
  = Ok world_denied.
Proof.
  destruct (C8_open_failure_is_silent gmtime plain_text stack0 "log.txt"
              (CallHexWrite bytes3 3 1) world_denied) as [_ Hreturns].
  - vm_compute. reflexivity.
  - apply Hreturns. vm_compute. repeat split; discriminate.
Defined.

Lemma C10_lpszStr_bound_witness :
  DebugAngel_HexWrite gmtime stack0 "log.txt" (replicate 198 xff%byte) 198 1
    world0
  = Ok (write_record "log.txt"
          (spec_hex_record (gmtime 1704164645) (replicate 198 xff%byte) 1)
          world0).
Proof.
  apply (C10_lpszStr_bound gmtime stack0 "log.txt" (replicate 198 xff%byte)
           1 world0).
  - vm_compute. repeat split; discriminate.
  - rewrite length_replicate. lia.
Defined.

(** ** What the stack held does not matter *)

(** X5.  The arrays of [DebugAngel_HexWrite] are declared without
    initialiser, yet nothing of what the stack held reaches the log or
    the outcome of the call. *)
Theorem X5_dump_ignores_stack_contents (localtime : Z → tm)
    (g1 g2 : string → nat → ascii) path pBuffer iSize sender w :
  tm_in_range (localtime (clock w)) →
  iSize ≤ Z.of_nat (length pBuffer) →
  DebugAngel_HexWrite localtime g1 path pBuffer iSize sender w
  = DebugAngel_HexWrite localtime g2 path pBuffer iSize sender w.
Proof.
  intros Ht Hbuf. destruct (Z_le_gt_dec iSize 198) as [Hle|Hgt].
  - rewrite !HexWrite_ok by assumption. reflexivity.
  - rewrite !HexWrite_overrun by (try assumption; lia). reflexivity.
Qed.

(** X14.  Likewise for [DebugAngel_Write] and its [lpszBuffer], when
    the rendered text fits. *)
Theorem X14_write_ignores_stack_contents
    (wvsprintf_text : string → list VArg → list ascii)
    (g1 g2 : string → nat → ascii) path lpszFormat va w :
  (length (wvsprintf_text lpszFormat va) < 1024)%nat →
  DebugAngel_Write wvsprintf_text g1 path (VStr lpszFormat :: va) w
  = DebugAngel_Write wvsprintf_text g2 path (VStr lpszFormat :: va) w.
Proof.
  intros Hfit. rewrite !Write_ok by exact Hfit. reflexivity.
Qed.

(** ** The further properties at concrete inputs *)

Lemma X2_nonpositive_size_witness :
  ∃ w', DebugAngel_HexWrite gmtime stack0 "log.txt" bytes3 (-5) 1 world_log
        = Ok w'
        ∧ contents w' "log.txt"
          = lit "old[2024-01-02 03:04:05] C->S " ++ [CR; LF].
Proof.
  apply (X2_nonpositive_size gmtime stack0 "log.txt" bytes3 (-5) 1
           world_log).
  - lia.
  - vm_compute. discriminate.
  - vm_compute. reflexivity.
  - vm_compute. repeat split; discriminate.
Defined.

Lemma X3_size_beyond_buffer_witness :
  DebugAngel_HexWrite gmtime stack0 "log.txt" bytes3 4 1 world0
  = Undefined (ReadPastEnd "pBuffer").
Proof.
  apply (X3_size_beyond_buffer gmtime stack0 "log.txt" bytes3 4 1 world0).
  - vm_compute. repeat split; discriminate.
  - simpl. lia.
  - simpl. lia.
Defined.

Lemma X4_reads_only_iSize_bytes_witness :
  DebugAngel_HexWrite gmtime stack0 "log.txt" [x41; x00; xff]%byte 2 1 world0
  = DebugAngel_HexWrite gmtime stack0 "log.txt" [x41; x00; x07; x08]%byte 2 1
      world0.
Proof.
  apply (X4_reads_only_iSize_bytes gmtime stack0 "log.txt"
           [x41; x00; xff]%byte [x41; x00; x07; x08]%byte 2 1 world0).
  - vm_compute. repeat split; discriminate.
  - simpl. lia.
  - simpl. lia.
  - reflexivity.
Defined.

Lemma X5_dump_ignores_stack_contents_witness :
  DebugAngel_HexWrite gmtime stack0 "log.txt" bytes3 3 1 world_log
  = DebugAngel_HexWrite gmtime (λ _ i, ascii_of_nat i) "log.txt" bytes3 3 1
      world_log.
Proof.
  apply (X5_dump_ignores_stack_contents gmtime stack0 (λ _ i, ascii_of_nat i)
           "log.txt" bytes3 3 1 world_log).
  - vm_compute. repeat split; discriminate.
  - simpl. lia.
Defined.

Lemma X6_record_is_one_line_witness :
  ∃ w' line,
    DebugAngel_HexWrite gmtime stack0 "log.txt" bytes3 3 1 world_log = Ok w'
    ∧ contents w' "log.txt" = lit "old" ++ line ++ [CR; LF]
    ∧ forallb printable line = true.
Proof.
  apply (X6_record_is_one_line gmtime stack0 "log.txt" bytes3 3 1 world_log).
  - vm_compute. discriminate.
  - vm_compute. reflexivity.
  - vm_compute. repeat split; discriminate.
  - lia.
  - simpl. lia.
Defined.

Lemma X7_timestamp_reads_back_witness :
  ∃ s, (GetCurrentTimeWrapped gmtime (uninit "timeStr" 64 (stack0 "timeStr"))
          world0 ≫= c_str) = Ok s
       ∧ parse_timestamp s = Some (Tm 5 4 3 2 0 124).
Proof.
  apply (X7_timestamp_reads_back gmtime
           (uninit "timeStr" 64 (stack0 "timeStr")) world0).
  - vm_compute. repeat split; discriminate.
  - simpl. lia.
Defined.

Lemma X8_record_reads_back_witness :
  ∃ w' rec,
    DebugAngel_HexWrite gmtime stack0 "log.txt" bytes3 3 1 world_log = Ok w'
    ∧ contents w' "log.txt" = lit "old" ++ rec
    ∧ parse_record rec = Some (Tm 5 4 3 2 0 124, true, bytes3).
Proof.
  apply (X8_record_reads_back gmtime stack0 "log.txt" bytes3 3 1 world_log).
  - vm_compute. discriminate.
  - vm_compute. reflexivity.
  - vm_compute. repeat split; discriminate.
  - lia.
  - simpl. lia.
Defined.

Lemma X9_calls_keep_the_world_witness :
  denied (set_file "log.txt" [] world0) = denied world0
  ∧ clock (set_file "log.txt" [] world0) = clock world0
  ∧ (∀ f, is_Some (files world0 !! f) →
          is_Some (files (set_file "log.txt" [] world0) !! f))
  ∧ ("log.txt" ∉ denied world0 →
     is_Some (files (set_file "log.txt" [] world0) !! "log.txt")).
Proof.
  apply (X9_calls_keep_the_world gmtime plain_text stack0 "log.txt"
           (CallInfoStr (literal "")) world0 (set_file "log.txt" [] world0)).
  vm_compute. reflexivity.
Defined.

Lemma X10_different_files_commute_witness :
  (w1 ← run_call gmtime plain_text stack0 "a.txt" (CallWrite [VStr "one"])
          world0;
   run_call gmtime plain_text stack0 "b.txt" (CallHexWrite bytes3 3 1) w1)
  = (w2 ← run_call gmtime plain_text stack0 "b.txt" (CallHexWrite bytes3 3 1)
            world0;
     run_call gmtime plain_text stack0 "a.txt" (CallWrite [VStr "one"]) w2).
Proof.
  apply (X10_different_files_commute gmtime plain_text stack0 "a.txt" "b.txt"
           (CallWrite [VStr "one"]) (CallHexWrite bytes3 3 1) world0).
  - vm_compute. discriminate.
  - simpl. lia.
  - vm_compute. repeat split; discriminate.
Defined.

Lemma X11_two_writes_are_one_witness :
  (w1 ← WriteDebugInfoStr "log.txt" (literal "ab") world_log;
   WriteDebugInfoStr "log.txt" (literal "cd") w1)
  = WriteDebugInfoStr "log.txt" (literal "abcd") world_log.
Proof.
  apply (X11_two_writes_are_one "log.txt" (literal "ab") (literal "cd")
           (literal "abcd") (lit "ab") (lit "cd") world_log);
    vm_compute; reflexivity.
Defined.

Lemma X12_growth_witness :
  ∃ w', DebugAngel_HexWrite gmtime stack0 "log.txt" bytes3 3 1 world_log
        = Ok w'
        ∧ length (contents w' "log.txt") = 47%nat.
Proof.
  apply (X12_growth gmtime stack0 "log.txt" bytes3 3 1 world_log).
  - vm_compute. discriminate.
  - vm_compute. reflexivity.
  - vm_compute. repeat split; discriminate.
  - lia.
  - simpl. lia.
Defined.

Lemma X13_timestamp_needs_23_cells_witness :
  GetCurrentTimeWrapped gmtime (CBuf "small" (replicate 22 NUL)) world0
  = Undefined (WritePastEnd "small" 22).
Proof.
  apply (X13_timestamp_needs_23_cells gmtime (CBuf "small" (replicate 22 NUL))
           world0).
  - vm_compute. repeat split; discriminate.
  - simpl. lia.
Defined.

Lemma X14_write_ignores_stack_contents_witness :
  DebugAngel_Write plain_text stack0 "log.txt" [VStr "hello"] world_log
  = DebugAngel_Write plain_text (λ _ i, ascii_of_nat i) "log.txt"
      [VStr "hello"] world_log.
Proof.
  apply (X14_write_ignores_stack_contents plain_text stack0
           (λ _ i, ascii_of_nat i) "log.txt" "hello" [] world_log).
  simpl. lia.
Defined.

Lemma X15_log_reads_back_witness :
  ∃ w', run_calls gmtime plain_text stack0 "log.txt"
          (map dump_call [(1704164645, bytes3, 1); (1704164646, [], 2)])
          world0 = Ok w'
        ∧ read_log (contents w' "log.txt")
          = Some [(Tm 5 4 3 2 0 124, true, bytes3);
                  (Tm 6 4 3 2 0 124, false, [])].
Proof.
  apply (X15_log_reads_back gmtime plain_text stack0 "log.txt"
           [(1704164645, bytes3, 1); (1704164646, [], 2)] world0).
  - vm_compute. discriminate.
  - reflexivity.
  - constructor; [|constructor; [|constructor]].
    + split; [vm_compute; repeat split; discriminate | simpl; lia].
    + split; [vm_compute; repeat split; discriminate | simpl; lia].
  - vm_compute. reflexivity.
Defined.

Lemma X16_append_only_below_4GiB_witness :
  (∃ rec, contents world_log_dumped "log.txt"
          = contents world_log "log.txt" ++ rec)
  ∧ (∀ f, f ≠ "log.txt" →
          files world_log_dumped !! f = files world_log !! f).
Proof.
  destruct (X16_append_only_below_4GiB gmtime plain_text stack0 "log.txt"
              (CallHexWrite bytes3 3 1) world_log world_log_dumped)
    as (Hfront & Hothers & _).
  - vm_compute. reflexivity.
  - vm_compute. reflexivity.
  - split; assumption.
Defined.

Lemma X17_records_in_call_order_below_4GiB_witness :
  ∃ w', run_calls gmtime plain_text stack0 "log.txt" three_calls world_log
        = Ok w'
        ∧ contents w' "log.txt"
          = lit "oldstart[2024-01-02 03:04:06] C->S 0x41 0x00 0xFF "
              ++ [CR; LF] ++ lit "end".
Proof.
  apply (X17_records_in_call_order_below_4GiB gmtime plain_text stack0
           "log.txt" three_calls world_log).
  - vm_compute. discriminate.
  - unfold three_calls.
    constructor; [|constructor; [|constructor; [|constructor]]].
    + simpl. lia.
    + vm_compute. repeat split; discriminate.
    + simpl. do 3 apply Exists_cons_tl. apply Exists_cons_hd. reflexivity.
  - vm_compute. reflexivity.
Defined.
